(** * Quicknode RPC node: a shallow embedding of [QuicknodeRpc.node.ts]

    The node turns one "operation" per input item into a JSON-RPC call,
    checks the answer for an RPC-level error and decorates the result
    with decoded numeric fields.

    Contents:
    - Part 1, [JS]: the fragment of the JavaScript runtime the node
      relies on (values, truthiness, string conversions, [parseInt],
      [BigInt], [Number.prototype.toString(16)], [toFixed]); JS numbers
      are IEEE binary64 values, modelled with [spec_float];
    - Part 2, the node itself: [isValidAddress], [isValidTxHash],
      [toBlockTag], the per-operation request builder, the response
      shaper and the batch loop [execute].  The host's helpers and the
      built-ins that are not modelled ([helpers.httpRequest],
      [JSON.parse], decimal [Number::toString], the digits of
      [toString(16)] beyond [2^53], the messages the host library gives
      its errors) are fields of an environment [Env], over which every
      property is quantified;
    - Part 3, the vocabulary of the properties and a sample environment;
    - Parts 4 and 5, lemmas on the runtime fragment and on the execution;
    - Part 6, the properties C1 to C10;
    - Part 7, further properties of the validators, the request
      builder, the response shaper and the batch loop. *)

From Stdlib Require Import ZArith List String Ascii Bool Lia.
From Stdlib Require Import SpecFloat.
Import ListNotations.

Local Open Scope string_scope.
Local Open Scope Z_scope.

Set Warnings "-register-all".

(* ================================================================== *)
(** * Part 1: the JavaScript runtime fragment                          *)
(* ================================================================== *)

Module JS.

(** ** Characters and digits *)

Definition code (c : ascii) : Z := Z.of_nat (nat_of_ascii c).

Definition in_range (lo hi : Z) (c : ascii) : bool :=
  (lo <=? code c) && (code c <=? hi).

(** [\d] of a JS regular expression without the [u]/[i] flags: [0-9]. *)
Definition is_digit (c : ascii) : bool := in_range 48 57 c.

(** The class [[a-fA-F0-9]]. *)
Definition is_hex (c : ascii) : bool :=
  in_range 97 102 c || in_range 65 70 c || in_range 48 57 c.

(** Value of a character as a digit in bases up to 36 (as [parseInt] and
    the BigInt literal grammar read them: both letter cases). *)
Definition digit_value (c : ascii) : option Z :=
  if in_range 48 57 c then Some (code c - 48)
  else if in_range 97 122 c then Some (code c - 87)
  else if in_range 65 90 c then Some (code c - 55)
  else None.

Definition digit_in (radix : Z) (c : ascii) : option Z :=
  match digit_value c with
  | Some d => if d <? radix then Some d else None
  | None => None
  end.

(** The digit characters produced by [toString(radix)]: lowercase. *)
Definition digit_char (d : Z) : ascii :=
  if d <? 10 then ascii_of_nat (Z.to_nat (48 + d))
  else ascii_of_nat (Z.to_nat (87 + d)).

(** ** Strings *)

Fixpoint forallb_str (p : ascii -> bool) (s : string) : bool :=
  match s with
  | EmptyString => true
  | String c r => p c && forallb_str p r
  end.

Fixpoint rev_str (s acc : string) : string :=
  match s with
  | EmptyString => acc
  | String c r => rev_str r (String c acc)
  end.

Definition is_empty (s : string) : bool :=
  match s with EmptyString => true | _ => false end.

(** ASCII members of WhiteSpace and LineTerminator: TAB, LF, VT, FF, CR, SP. *)
Definition is_ascii_ws (c : ascii) : bool :=
  in_range 9 13 c || (code c =? 32).

(** Strings are read as UTF-8 text.  The non-ASCII members of WhiteSpace
    and LineTerminator (U+00A0, U+1680, U+2000..U+200A, U+2028, U+2029,
    U+202F, U+205F, U+3000, U+FEFF) are recognised by their encodings. *)
Definition ws2 (a b : ascii) : bool :=
  (code a =? 194) && (code b =? 160).

Definition ws3 (a b c : ascii) : bool :=
  ((code a =? 225) && (code b =? 154) && (code c =? 128))
  || ((code a =? 226) && (code b =? 128)
      && (in_range 128 138 c || (code c =? 168) || (code c =? 169) || (code c =? 175)))
  || ((code a =? 226) && (code b =? 129) && (code c =? 159))
  || ((code a =? 227) && (code b =? 128) && (code c =? 128))
  || ((code a =? 239) && (code b =? 187) && (code c =? 191)).

Fixpoint trim_start (s : string) : string :=
  match s with
  | EmptyString => s
  | String a r1 =>
      if is_ascii_ws a then trim_start r1
      else match r1 with
           | EmptyString => s
           | String b r2 =>
               if ws2 a b then trim_start r2
               else match r2 with
                    | EmptyString => s
                    | String c r3 => if ws3 a b c then trim_start r3 else s
                    end
           end
  end.

(** The same on the reversed text (encodings read backwards). *)
Fixpoint trim_start_rev (s : string) : string :=
  match s with
  | EmptyString => s
  | String a r1 =>
      if is_ascii_ws a then trim_start_rev r1
      else match r1 with
           | EmptyString => s
           | String b r2 =>
               if ws2 b a then trim_start_rev r2
               else match r2 with
                    | EmptyString => s
                    | String c r3 => if ws3 c b a then trim_start_rev r3 else s
                    end
           end
  end.

Definition trim (s : string) : string :=
  rev_str (trim_start_rev (rev_str (trim_start s) "")) "".

(** [s.startsWith(p)], returning what follows the prefix. *)
Fixpoint strip_prefix (p s : string) : option string :=
  match p with
  | EmptyString => Some s
  | String a p' =>
      match s with
      | String b s' => if Ascii.eqb a b then strip_prefix p' s' else None
      | EmptyString => None
      end
  end.

(** ** Integers in positional notation *)

(** Horner evaluation of the longest prefix of [s] made of digits of base
    [radix]; returns the value, the number of digits read and the rest. *)
Fixpoint read_digits (radix : Z) (s : string) (acc : Z) (n : nat)
  : Z * nat * string :=
  match s with
  | EmptyString => (acc, n, s)
  | String c r =>
      match digit_in radix c with
      | Some d => read_digits radix r (acc * radix + d) (S n)
      | None => (acc, n, s)
      end
  end.

(** The digits of a non-negative integer, most significant first. *)
Fixpoint to_radix_aux (fuel : nat) (radix n : Z) (acc : string) : string :=
  match fuel with
  | O => acc
  | S f =>
      let acc' := String (digit_char (n mod radix)) acc in
      if n / radix =? 0 then acc' else to_radix_aux f radix (n / radix) acc'
  end.

Definition to_radix (radix n : Z) : string :=
  to_radix_aux (S (Z.to_nat (Z.log2 n))) radix n "".

(** [BigInt.prototype.toString()] *)
Definition BigInt_toString (n : Z) : string :=
  if n <? 0 then "-" ++ to_radix 10 (- n) else to_radix 10 n.

(** ** Numbers: IEEE 754 binary64 *)

Definition prec : Z := 53.
Definition emax : Z := 1024.

Definition number := spec_float.

(** The Number value for a mathematical integer (round to nearest, ties
    to even; overflow gives an infinity). [neg_zero] is the sign given to
    a zero. *)
Definition Number_of_Z (z : Z) (neg_zero : bool) : number :=
  binary_normalize prec emax z 0 neg_zero.

Definition Number_div (x y : number) : number := SFdiv prec emax x y.

Definition NaN : number := S754_nan.

(** The literals [1e18] and [1e9]; both are exactly representable. *)
Definition lit_1e18 : number := Number_of_Z (10 ^ 18) false.
Definition lit_1e9 : number := Number_of_Z (10 ^ 9) false.

(** [Number.prototype.toString(16)].  Not-a-number, the infinities, the
    zeros and the sign are written as ECMAScript says.  The digits of a
    positive finite value are left to the implementation; for an integer
    up to [2^53] engines write the digits of the integer, and that is
    what is written here.  For every other value (an integer above
    [2^53], a value with a fraction) the digits are whatever the engine
    writes: [engine_digits], applied to the absolute value. *)
Definition Number_toString16 (engine_digits : number -> string) (x : number) : string :=
  match x with
  | S754_nan => "NaN"
  | S754_infinity false => "Infinity"
  | S754_infinity true => "-Infinity"
  | S754_zero _ => "0"
  | S754_finite s m e =>
      let sign := if s then "-" else "" in
      let integral :=
        if 0 <=? e then Some (Z.shiftl (Zpos m) e)
        else if Z.land (Zpos m) (Z.ones (- e)) =? 0
             then Some (Z.shiftr (Zpos m) (- e))
             else None in
      match integral with
      | Some n =>
          if n <=? 2 ^ 53 then sign ++ to_radix 16 n
          else sign ++ engine_digits (S754_finite false m e)
      | None => sign ++ engine_digits (S754_finite false m e)
      end
  end.

(** [parseInt(string, radix)] for [radix] 10 or 16: leading white space
    is skipped, a sign is read, for radix 16 a [0x]/[0X] prefix is
    dropped, and the longest run of digits is converted; no digit gives
    NaN.  The mathematical integer is rounded to the nearest Number (past
    20 significant decimal digits ECMAScript lets an implementation read
    zeros instead; the rounding here is the correctly rounded one). *)
Definition parseInt (input : string) (radix : Z) : number :=
  let s := trim_start input in
  let '(neg, s1) :=
    match s with
    | String c r =>
        if Ascii.eqb c "-" then (true, r)
        else if Ascii.eqb c "+" then (false, r)
        else (false, s)
    | EmptyString => (false, s)
    end in
  let s2 :=
    if radix =? 16 then
      match strip_prefix "0x" s1, strip_prefix "0X" s1 with
      | Some r, _ => r
      | None, Some r => r
      | None, None => s1
      end
    else s1 in
  let '(v, n, _) := read_digits radix s2 0 O in
  match n with
  | O => NaN
  | _ => Number_of_Z (if neg then - v else v) neg
  end.

(** ** Values *)

(** JavaScript values as the node meets them: what [JSON.parse] can
    return, plus [undefined] (an absent property).  Objects keep their
    properties in insertion order (none of the names the node sets is an
    array index). *)
Inductive jsval :=
| JUndefined
| JNull
| JBool (b : bool)
| JNum (x : number)
| JStr (s : string)
| JArr (elems : list jsval)
| JObj (fields : list (string * jsval)).

Definition obj := list (string * jsval).

(** ToBoolean *)
Definition truthy (v : jsval) : bool :=
  match v with
  | JUndefined | JNull => false
  | JBool b => b
  | JNum (S754_zero _) | JNum S754_nan => false
  | JNum _ => true
  | JStr s => negb (is_empty s)
  | JArr _ | JObj _ => true
  end.

(** [a || b] *)
Definition or_else (a b : jsval) : jsval := if truthy a then a else b.

Fixpoint lookup (k : string) (o : obj) : option jsval :=
  match o with
  | [] => None
  | (k', v) :: r => if String.eqb k k' then Some v else lookup k r
  end.

(** [o.k = v]: an existing property keeps its place, a new one goes last. *)
Fixpoint obj_set (k : string) (v : jsval) (o : obj) : obj :=
  match o with
  | [] => [(k, v)]
  | (k', v') :: r =>
      if String.eqb k k' then (k, v) :: r else (k', v') :: obj_set k v r
  end.

(** Errors thrown by the runtime itself: the constructor name
    ([TypeError], [SyntaxError], [RangeError]) and the message. *)
Record JsError := { js_name : string; js_message : string }.

Definition result (A : Type) : Type := (JsError + A)%type.

(** [v.k] for the property names the node reads ([error], [result],
    [message], [code]): no primitive wrapper or array has them, and
    reading a property of [null] or [undefined] throws. *)
Definition get (v : jsval) (k : string) : result jsval :=
  match v with
  | JUndefined =>
      inl {| js_name := "TypeError";
             js_message := "Cannot read properties of undefined (reading '" ++ k ++ "')" |}
  | JNull =>
      inl {| js_name := "TypeError";
             js_message := "Cannot read properties of null (reading '" ++ k ++ "')" |}
  | JObj o => inr (match lookup k o with Some x => x | None => JUndefined end)
  | _ => inr JUndefined
  end.

(** Exact integer value of a Number, when it has one. *)
Definition integer_of_number (x : number) : option Z :=
  match x with
  | S754_zero _ => Some 0
  | S754_finite s m e =>
      let mag :=
        if 0 <=? e then Some (Z.shiftl (Zpos m) e)
        else if Z.land (Zpos m) (Z.ones (- e)) =? 0
             then Some (Z.shiftr (Zpos m) (- e))
             else None in
      match mag with
      | Some z => Some (if s then - z else z)
      | None => None
      end
  | _ => None
  end.

(** Reads a whole string of digits of base [radix]: at least one digit
    and nothing else. *)
Definition read_all (radix : Z) (s : string) : option Z :=
  match read_digits radix s 0 O with
  | (_, O, _) => None
  | (v, _, EmptyString) => Some v
  | _ => None
  end.

(** StringToBigInt: surrounding white space is dropped; the empty text
    is zero; a [0x], [0o] or [0b] literal carries no sign; a decimal
    literal may. *)
Definition StringToBigInt (str : string) : option Z :=
  let t := trim str in
  match t with
  | EmptyString => Some 0
  | String "0" (String "x" r) | String "0" (String "X" r) => read_all 16 r
  | String "0" (String "o" r) | String "0" (String "O" r) => read_all 8 r
  | String "0" (String "b" r) | String "0" (String "B" r) => read_all 2 r
  | String "-" r => option_map Z.opp (read_all 10 r)
  | String "+" r => read_all 10 r
  | _ => read_all 10 t
  end.

Section Conversions.

  (** [Number::toString] in radix 10 (the shortest digits that read back
      as the same Number) is left to the runtime. *)
Variable Number_toString : number -> string.

  (** ToString *)
Fixpoint ToString (v : jsval) : string :=
    match v with
    | JUndefined => "undefined"
    | JNull => "null"
    | JBool true => "true"
    | JBool false => "false"
    | JNum x => Number_toString x
    | JStr s => s
    | JArr l =>
        (fix join (l : list jsval) : string :=
           match l with
           | [] => ""
           | x :: r =>
               let e := match x with
                        | JUndefined | JNull => ""
                        | _ => ToString x
                        end in
               match r with
               | [] => e
               | _ => e ++ "," ++ join r
               end
           end) l
    | JObj _ => "[object Object]"
    end.

  (** [BigInt(v)] *)
Definition BigInt (v : jsval) : result Z :=
    let of_string (s : string) :=
      match StringToBigInt s with
      | Some z => inr z
      | None =>
          inl {| js_name := "SyntaxError";
                 js_message := "Cannot convert " ++ s ++ " to a BigInt" |}
      end in
    match v with
    | JUndefined | JNull =>
        inl {| js_name := "TypeError";
               js_message := "Cannot convert " ++ ToString v ++ " to a BigInt" |}
    | JBool b => inr (if b then 1 else 0)
    | JNum x =>
        match integer_of_number x with
        | Some z => inr z
        | None =>
            inl {| js_name := "RangeError";
                   js_message := "The number " ++ Number_toString x
                     ++ " cannot be converted to a BigInt because it is not an integer" |}
        end
    | JStr s => of_string s
    | JArr _ | JObj _ => of_string (ToString v)
    end.

  (** [n] zeros *)
Fixpoint zeros (n : nat) : string :=
    match n with O => "" | S k => String "0" (zeros k) end.

  (** Puts the decimal point [f] digits from the right of the digits of
      [n], padding with zeros on the left. *)
Definition fixed_digits (n : Z) (f : nat) : string :=
    let m := to_radix 10 n in
    match f with
    | O => m
    | _ =>
        let k := String.length m in
        let m' := if Nat.leb k f then zeros (S f - k) ++ m else m in
        let k' := String.length m' in
        substring 0 (k' - f) m' ++ "." ++ substring (k' - f) f m'
    end.

  (** [Number.prototype.toFixed(f)]: the integer [n] with [n / 10^f]
      nearest to the exact value of the Number (the larger one on a tie),
      written with [f] fractional digits; values of magnitude [10^21] and
      above are written by ToString. *)
Definition Number_toFixed (x : number) (f : nat) : string :=
    match x with
    | S754_nan | S754_infinity _ => Number_toString x
    | S754_zero _ => fixed_digits 0 f
    | S754_finite s m e =>
        let sign := if s then "-" else "" in
        let p := 10 ^ Z.of_nat f in
        let '(num, den) :=
          if 0 <=? e then (Z.shiftl (Zpos m) e, 1) else (Zpos m, Z.shiftl 1 (- e)) in
        if 10 ^ 21 * den <=? num
        then sign ++ Number_toString (S754_finite false m e)
        else sign ++ fixed_digits ((2 * num * p + den) / (2 * den)) f
    end.

End Conversions.

End JS.

(* ================================================================== *)
(** * Part 2: the node                                                 *)
(* ================================================================== *)

Local Close Scope Z_scope.

(** The regular expression [/^0x[a-fA-F0-9]{n}$/]. *)
Definition matches_0x_hex (n : nat) (s : string) : bool :=
  match JS.strip_prefix "0x" s with
  | Some r => (Nat.eqb (String.length r) n) && JS.forallb_str JS.is_hex r
  | None => false
  end.

(** [/^0x[a-fA-F0-9]{40}$/.test(address)] *)
Definition isValidAddress (address : string) : bool :=
  matches_0x_hex 40 address.

(** [/^0x[a-fA-F0-9]{64}$/.test(hash)] *)
Definition isValidTxHash (hash : string) : bool :=
  matches_0x_hex 64 hash.

Definition symbolic_tags : list string :=
  ["latest"; "earliest"; "pending"; "safe"; "finalized"].

Definition includes (l : list string) (s : string) : bool :=
  existsb (String.eqb s) l.

(** [/^\d+$/.test(block)] *)
Definition all_digits (s : string) : bool :=
  negb (JS.is_empty s) && JS.forallb_str JS.is_digit s.


(** ** What the host hands to the node *)

(** The parameters of one input item, as [getNodeParameter] resolves
    them (the resolution itself is the host's and is taken to succeed).
    A parameter read with a fallback value is optional. *)
Record Item := {
  operation : string;
  address : string;
  block : option string;
  blockIdentifier : string;
  fullTransactions : bool;
  txHash : string;
  to : string;
  from : option string;
  data : option string;
  value : option string;
  rpcMethod : string;
  rpcParams : option string
}.

(** [this.getNodeParameter(name, i, fallback)] *)
Definition getNodeParameter (p : option string) (fallback : string) : string :=
  match p with Some v => v | None => fallback end.

Record Credentials := {
  rpcEndpoint : option string;
  network : JS.jsval
}.

(** The JSON-RPC envelope and the options given to [helpers.httpRequest]. *)
Record RpcBody := {
  jsonrpc : string;
  rpc_method : string;
  rpc_params : list JS.jsval;
  id : nat
}.

Record RequestOptions := {
  http_method : string;
  url : string;
  headers : list (string * string);
  body : RpcBody;
  opt_json : bool
}.

(** One entry of the returned data. *)
Record ExecutionData := {
  json : JS.obj;
  pairedItem : nat
}.

(** ** Errors *)

Inductive NodeError :=
| NodeOperationError (message : string) (itemIndex : option nat)
| NodeApiError (message : JS.jsval) (description : string) (code : JS.jsval)
               (itemIndex : nat)
| RuntimeError (e : JS.JsError)
| RequestError (message : string).

(** ** The environment: the host's helpers and the runtime's built-ins
    that are not modelled here *)
Record Env := {
  (** [helpers.httpRequest]: rejects with a message or resolves with the
      parsed response body *)
  httpRequest : RequestOptions -> string + JS.jsval;
  (** [JSON.parse]: a [SyntaxError] message or the value *)
  JSON_parse : string -> string + JS.jsval;
  (** [Number::toString] in radix 10 *)
  Number_toString : JS.number -> string;
  (** the digits [toString(16)] writes for a positive finite Number that
      is not an integer up to [2^53] *)
  Number_toString_radix16 : JS.number -> string;
  (** the [message] the host library gives a [NodeOperationError] built
      from a text (the library may rewrite the text) *)
  NodeOperationError_message : string -> JS.jsval;
  (** the [message] the host library gives a [NodeApiError] built from
      [{message, description, code}] *)
  NodeApiError_message : JS.jsval -> string -> JS.jsval -> JS.jsval;
  (** the message of the [TypeError] the [NodeApiError] constructor
      throws when the [message] it is given is not a string *)
  NodeApiError_TypeError : JS.jsval -> string
}.

(** [new NodeApiError(node, {message, description, code}, {itemIndex})]:
    the error object, or the [TypeError] the constructor throws on a
    [message] that is not a string.  Either way this is what the
    [throw] statement raises. *)
Definition new_NodeApiError (env : Env) (message : JS.jsval) (description : string)
           (code : JS.jsval) (itemIndex : nat) : NodeError :=
  match message with
  | JS.JStr _ => NodeApiError message description code itemIndex
  | _ =>
      RuntimeError {| JS.js_name := "TypeError";
                      JS.js_message := NodeApiError_TypeError env message |}
  end.

(** [(error as Error).message] *)
Definition error_message (env : Env) (e : NodeError) : JS.jsval :=
  match e with
  | NodeOperationError m _ => NodeOperationError_message env m
  | NodeApiError m d c _ => NodeApiError_message env m d c
  | RuntimeError e => JS.JStr (JS.js_message e)
  | RequestError m => JS.JStr m
  end.

(** ** The block tag *)

(** [toBlockTag(block)]; [toString(16)] is the engine's, hence the
    environment. *)
Definition toBlockTag (env : Env) (block : string) : string :=
  if includes symbolic_tags block then block
  else if all_digits block
       then "0x" ++ JS.Number_toString16 (Number_toString_radix16 env)
                                         (JS.parseInt block 10)
  else block.

(** ** Building the request *)

Definition invalid_address (what a : string) (i : nat) : NodeError :=
  NodeOperationError
    (what ++ a ++ ". Must be 42 characters starting with 0x") (Some i).

Definition invalid_hash (h : string) (i : nat) : NodeError :=
  NodeOperationError
    ("Invalid transaction hash: " ++ h
       ++ ". Must be 66 characters starting with 0x") (Some i).

(** [/^0x/.test(value)] *)
Definition starts_0x (s : string) : bool :=
  match JS.strip_prefix "0x" s with Some _ => true | None => false end.

(** The fields shared by [estimateGas] and [call]. *)
Definition txObject_base (to_ from_ data_ : string) : JS.obj :=
  let o := [("to", JS.JStr to_)] in
  let o := if negb (JS.is_empty from_) then JS.obj_set "from" (JS.JStr from_) o else o in
  if negb (JS.is_empty data_) then JS.obj_set "data" (JS.JStr data_) o else o.

(** The [switch (operation)] of [execute]: the method and the params, or
    the error thrown. *)
Definition build_request (env : Env) (i : nat) (it : Item)
  : NodeError + (string * list JS.jsval) :=
  let op := operation it in
  if op =? "getBalance" then
    let address := address it in
    let block := getNodeParameter (block it) "latest" in
    if negb (isValidAddress address)
    then inl (invalid_address "Invalid Ethereum address: " address i)
    else inr ("eth_getBalance", [JS.JStr address; JS.JStr (toBlockTag env block)])
  else if op =? "getBlockNumber" then
    inr ("eth_blockNumber", [])
  else if op =? "getBlock" then
    let blockIdentifier := blockIdentifier it in
    let fullTransactions := fullTransactions it in
    if matches_0x_hex 64 blockIdentifier
    then inr ("eth_getBlockByHash",
              [JS.JStr blockIdentifier; JS.JBool fullTransactions])
    else inr ("eth_getBlockByNumber",
              [JS.JStr (toBlockTag env blockIdentifier); JS.JBool fullTransactions])
  else if op =? "getTransaction" then
    let txHash := txHash it in
    if negb (isValidTxHash txHash) then inl (invalid_hash txHash i)
    else inr ("eth_getTransactionByHash", [JS.JStr txHash])
  else if op =? "getTransactionReceipt" then
    let txHash := txHash it in
    if negb (isValidTxHash txHash) then inl (invalid_hash txHash i)
    else inr ("eth_getTransactionReceipt", [JS.JStr txHash])
  else if op =? "getTransactionCount" then
    let address := address it in
    let block := getNodeParameter (block it) "latest" in
    if negb (isValidAddress address)
    then inl (invalid_address "Invalid Ethereum address: " address i)
    else inr ("eth_getTransactionCount",
              [JS.JStr address; JS.JStr (toBlockTag env block)])
  else if op =? "getCode" then
    let address := address it in
    let block := getNodeParameter (block it) "latest" in
    if negb (isValidAddress address)
    then inl (invalid_address "Invalid Ethereum address: " address i)
    else inr ("eth_getCode", [JS.JStr address; JS.JStr (toBlockTag env block)])
  else if op =? "getGasPrice" then
    inr ("eth_gasPrice", [])
  else if op =? "estimateGas" then
    let to_ := to it in
    let from_ := getNodeParameter (from it) "" in
    let data_ := getNodeParameter (data it) "" in
    let value_ := getNodeParameter (value it) "0" in
    if negb (isValidAddress to_)
    then inl (invalid_address "Invalid 'to' address: " to_ i)
    else if negb (JS.is_empty from_) && negb (isValidAddress from_)
    then inl (invalid_address "Invalid 'from' address: " from_ i)
    else
      let txObject := txObject_base to_ from_ data_ in
      let txObject :=
        if negb (JS.is_empty value_) && negb (value_ =? "0")
        then JS.obj_set "value"
               (JS.JStr (if starts_0x value_ then value_
                         else "0x" ++ JS.Number_toString16
                                        (Number_toString_radix16 env)
                                        (JS.parseInt value_ 10)))
               txObject
        else txObject in
      inr ("eth_estimateGas", [JS.JObj txObject])
  else if op =? "call" then
    let to_ := to it in
    let from_ := getNodeParameter (from it) "" in
    let data_ := getNodeParameter (data it) "" in
    let block := getNodeParameter (block it) "latest" in
    if negb (isValidAddress to_)
    then inl (invalid_address "Invalid 'to' address: " to_ i)
    else if negb (JS.is_empty from_) && negb (isValidAddress from_)
    then inl (invalid_address "Invalid 'from' address: " from_ i)
    else
      let txObject := txObject_base to_ from_ data_ in
      inr ("eth_call", [JS.JObj txObject; JS.JStr (toBlockTag env block)])
  else if op =? "customRpc" then
    let method := rpcMethod it in
    let paramsJson := getNodeParameter (rpcParams it) "[]" in
    match JSON_parse env paramsJson with
    | inr (JS.JArr params) => inr (method, params)
    | inr _ =>
        inl (NodeOperationError
               ("Invalid JSON parameters: " ++ "Parameters must be a JSON array")
               (Some i))
    | inl parseError =>
        inl (NodeOperationError ("Invalid JSON parameters: " ++ parseError) (Some i))
    end
  else
    inl (NodeOperationError ("Unknown operation: " ++ op) (Some i)).

(** ** The execution monad

    A computation may throw a [NodeError] and records, in order, the
    requests it hands to [helpers.httpRequest]. *)

Definition M (A : Type) : Type :=
  list RequestOptions -> list RequestOptions * (NodeError + A).

Definition ret {A} (a : A) : M A := fun log => (log, inr a).

Definition throw {A} (e : NodeError) : M A := fun log => (log, inl e).

Definition bind {A B} (m : M A) (k : A -> M B) : M B :=
  fun log =>
    match m log with
    | (log', inr a) => k a log'
    | (log', inl e) => (log', inl e)
    end.

(** [try { m } catch (error) { h error }] *)
Definition try_catch {A} (m : M A) (h : NodeError -> M A) : M A :=
  fun log =>
    match m log with
    | (log', inr a) => (log', inr a)
    | (log', inl e) => h e log'
    end.

Definition lift {A} (r : NodeError + A) : M A := fun log => (log, r).

(** A step of the runtime that may throw one of its own errors. *)
Definition lift_js {A} (r : JS.result A) : M A :=
  match r with
  | inl e => throw (RuntimeError e)
  | inr a => ret a
  end.

Notation "x <- m ;; k" := (bind m (fun x => k))
  (at level 61, m at next level, right associativity).
Notation "' p <- m ;; k" := (bind m (fun x => let 'p := x in k))
  (at level 61, p pattern, m at next level, right associativity).

(** [await this.helpers.httpRequest(options)] *)
Definition await_httpRequest (env : Env) (options : RequestOptions) : M JS.jsval :=
  fun log =>
    ((log ++ [options])%list,
     match httpRequest env options with
     | inl m => inl (RequestError m)
     | inr response => inr response
     end).

Definition request_options (rpcEndpoint method : string)
           (params : list JS.jsval) (i : nat) : RequestOptions :=
  {| http_method := "POST";
     url := rpcEndpoint;
     headers := [("Content-Type", "application/json")];
     body := {| jsonrpc := "2.0";
                rpc_method := method;
                rpc_params := params;
                id := i + 1 |};
     opt_json := true |}.

(** ** Shaping the response *)

(** The [BigInt] conversions of [getBalance] and [getGasPrice]: the
    decimal string, and the quotient by [unit] as a Number written with
    [digits] fractional digits. *)
Definition add_scaled (env : Env) (kWei kScaled : string) (unit : JS.number)
           (digits : nat) (result : JS.jsval) (resultData : JS.obj)
  : JS.result JS.obj :=
  match JS.BigInt (Number_toString env) result with
  | inl e => inl e
  | inr weiValue =>
      let resultData :=
        JS.obj_set kWei (JS.JStr (JS.BigInt_toString weiValue)) resultData in
      inr (JS.obj_set kScaled
             (JS.JStr (JS.Number_toFixed (Number_toString env)
                         (JS.Number_div (JS.Number_of_Z weiValue false) unit)
                         digits))
             resultData)
  end.

(** [parseInt(response.result, 16)] stored under [k]. *)
Definition add_decimal (env : Env) (k : string) (result : JS.jsval)
           (resultData : JS.obj) : JS.obj :=
  JS.obj_set k
    (JS.JNum (JS.parseInt (JS.ToString (Number_toString env) result) 16%Z))
    resultData.

Definition shape (env : Env) (operation method : string) (network result : JS.jsval)
  : JS.result JS.obj :=
  let resultData :=
    [("result", result); ("method", JS.JStr method); ("network", network)] in
  match
    (if (operation =? "getBalance") && JS.truthy result
     then add_scaled env "balanceWei" "balanceEth" JS.lit_1e18 18 result resultData
     else inr resultData)
  with
  | inl e => inl e
  | inr resultData =>
      let resultData :=
        if (operation =? "getBlockNumber") && JS.truthy result
        then add_decimal env "blockNumberDecimal" result resultData
        else resultData in
      match
        (if (operation =? "getGasPrice") && JS.truthy result
         then add_scaled env "gasPriceWei" "gasPriceGwei" JS.lit_1e9 9 result resultData
         else inr resultData)
      with
      | inl e => inl e
      | inr resultData =>
          let resultData :=
            if (operation =? "getTransactionCount") && JS.truthy result
            then add_decimal env "transactionCountDecimal" result resultData
            else resultData in
          let resultData :=
            if (operation =? "estimateGas") && JS.truthy result
            then add_decimal env "gasEstimateDecimal" result resultData
            else resultData in
          inr resultData
      end
  end.

(** ** One item: the body of the [try] block *)

Definition process_item (env : Env) (credentials : Credentials)
           (rpcEndpoint : string) (i : nat) (it : Item) : M ExecutionData :=
  '(method, params) <- lift (build_request env i it) ;;
  response <- await_httpRequest env (request_options rpcEndpoint method params i) ;;
  error <- lift_js (JS.get response "error") ;;
  if JS.truthy error then
    msg <- lift_js (JS.get error "message") ;;
    code <- lift_js (JS.get error "code") ;;
    throw (new_NodeApiError env
             (JS.or_else msg (JS.JStr "RPC Error"))
             ("RPC method " ++ method ++ " failed: "
                ++ JS.ToString (Number_toString env) msg)
             code i)
  else
    result <- lift_js (JS.get response "result") ;;
    resultData <- lift_js (shape env (operation it) method (network credentials) result) ;;
    ret {| json := resultData; pairedItem := i |}.

(** The record pushed by the [catch] block when the host asks to go on. *)
Definition error_record (env : Env) (i : nat) (error : NodeError) : ExecutionData :=
  {| json := [("error", error_message env error)]; pairedItem := i |}.

(** ** The batch *)

(** The [for] loop from index [i] on, [returnData] holding what was
    pushed so far. *)
Fixpoint run_items (env : Env) (continueOnFail : bool) (credentials : Credentials)
         (rpcEndpoint : string) (items : list Item) (i : nat)
         (returnData : list ExecutionData) : M (list ExecutionData) :=
  match items with
  | [] => ret returnData
  | it :: rest =>
      d <- try_catch (process_item env credentials rpcEndpoint i it)
             (fun error =>
                if continueOnFail then ret (error_record env i error)
                else throw error) ;;
      run_items env continueOnFail credentials rpcEndpoint rest (S i)
                (returnData ++ [d])%list
  end.

Definition execute (env : Env) (continueOnFail : bool) (credentials : Credentials)
           (items : list Item) : M (list (list ExecutionData)) :=
  match rpcEndpoint credentials with
  | None | Some EmptyString =>
      throw (NodeOperationError "RPC endpoint is required in credentials" None)
  | Some rpcEndpoint =>
      returnData <- run_items env continueOnFail credentials rpcEndpoint items 0 [] ;;
      ret [returnData]
  end.

(* ================================================================== *)
(** * Part 3: vocabulary of the properties                             *)
(* ================================================================== *)

(** ** Shapes of strings *)

(** The text [0x] followed by exactly [n] hexadecimal digits, as a
    proposition. *)
Definition hex_shape (n : nat) (s : string) : Prop :=
  exists h, s = "0x" ++ h /\ String.length h = n /\ JS.forallb_str JS.is_hex h = true.

(** The number a run of decimal digits denotes. *)
Definition decimal_value (s : string) : Z :=
  fst (fst (JS.read_digits 10 s 0 0)).

(** The digits [0-9a-f]. *)
Definition is_lower_hex (c : ascii) : bool :=
  JS.in_range 48 57 c || JS.in_range 97 102 c.

(** [s] is the canonical numeral of [n] in base [radix]: digits of that
    base only (lowercase letters), no leading zero except for zero
    itself, and value [n]. *)
Definition numeral_of (radix : Z) (lower : ascii -> bool) (n : Z) (s : string) : Prop :=
  JS.forallb_str lower s = true
  /\ JS.read_all radix s = Some n
  /\ (forall r, s = String "0" r -> r = EmptyString).

(** Visible ASCII characters: neither white space nor part of a
    multi-byte encoding. *)
Definition plain (c : ascii) : bool :=
  (JS.code c <? 128)%Z && negb (JS.is_ascii_ws c).

(** Reading the digits [ds] adds [n] to the accumulator shifted by as
    many places, whatever follows. *)
Definition reads (radix : Z) (ds : string) (n : Z) : Prop :=
  forall rest a k,
    JS.read_digits radix (ds ++ rest) a k
    = JS.read_digits radix rest
        (a * radix ^ Z.of_nat (String.length ds) + n)%Z
        (k + String.length ds).

(** A success record starts with [result], [method] and [network]. *)
Definition base_fields (method : string) (network result : JS.jsval) (rd : JS.obj) : Prop :=
  exists rest,
    rd = ("result", result) :: ("method", JS.JStr method) :: ("network", network) :: rest.

(** The specification's reading of the scaled balance: the integer
    divided by [10^digits] exactly, written with [digits] fractional
    digits. *)
Definition exact_scaled (n : Z) (digits : nat) : string :=
  JS.fixed_digits n digits.

(** ** Per-item views of a run *)

(** The outcome of an item and the requests it caused, taken on their own. *)
Definition item_outcome (env : Env) (credentials : Credentials) (rpcEndpoint : string)
           (i : nat) (it : Item) : NodeError + ExecutionData :=
  snd (process_item env credentials rpcEndpoint i it []).

Definition item_requests (env : Env) (credentials : Credentials) (rpcEndpoint : string)
           (i : nat) (it : Item) : list RequestOptions :=
  fst (process_item env credentials rpcEndpoint i it []).

(** The record emitted for an item in failure-tolerant mode. *)
Definition item_record (env : Env) (credentials : Credentials) (rpcEndpoint : string)
           (i : nat) (it : Item) : ExecutionData :=
  match item_outcome env credentials rpcEndpoint i it with
  | inr d => d
  | inl e => error_record env i e
  end.

(** The records of a batch, item [k] of the list having index [i + k]. *)
Fixpoint records_from (env : Env) (credentials : Credentials) (rpcEndpoint : string)
         (i : nat) (items : list Item) : list ExecutionData :=
  match items with
  | [] => []
  | it :: rest =>
      item_record env credentials rpcEndpoint i it
        :: records_from env credentials rpcEndpoint (S i) rest
  end.

Fixpoint requests_from (env : Env) (credentials : Credentials) (rpcEndpoint : string)
         (i : nat) (items : list Item) : list RequestOptions :=
  match items with
  | [] => []
  | it :: rest =>
      (item_requests env credentials rpcEndpoint i it
         ++ requests_from env credentials rpcEndpoint (S i) rest)%list
  end.

(** Whether an item goes through, and whether all items of a list do
    (the first one having index [i]). *)
Definition succeeds (env : Env) (credentials : Credentials) (rpcEndpoint : string)
           (i : nat) (it : Item) : bool :=
  match item_outcome env credentials rpcEndpoint i it with
  | inr _ => true
  | inl _ => false
  end.

Fixpoint all_succeed (env : Env) (credentials : Credentials) (rpcEndpoint : string)
         (i : nat) (items : list Item) : bool :=
  match items with
  | [] => true
  | it :: rest =>
      succeeds env credentials rpcEndpoint i it
      && all_succeed env credentials rpcEndpoint (S i) rest
  end.

Definition is_error_record (d : ExecutionData) : bool :=
  match json d with
  | [(k, _)] => k =? "error"
  | _ => false
  end.

(** ** A sample environment

    A small JSON reader (no escapes, integers only) and a canned
    endpoint, used to run the node on concrete inputs. *)
Module Sample.

Definition dquote : ascii := ascii_of_nat 34.
Definition q : string := String dquote EmptyString.

Fixpoint skip_ws (s : string) : string :=
  match s with
  | String c r =>
      if ((JS.code c =? 32) || (JS.code c =? 9) || (JS.code c =? 10) || (JS.code c =? 13))%Z
      then skip_ws r else s
  | EmptyString => s
  end.

(** The characters up to the closing quote; a backslash or a control
    character is refused. *)
Fixpoint read_string (s : string) : option (string * string) :=
  match s with
  | EmptyString => None
  | String c r =>
      if Ascii.eqb c dquote then Some (EmptyString, r)
      else if (Ascii.eqb c "\" || (JS.code c <? 32)%Z)%bool then None
      else match read_string r with
           | Some (str, r') => Some (String c str, r')
           | None => None
           end
  end.

Definition read_number (s : string) : option (JS.jsval * string) :=
  let '(neg, s1) := match s with String "-" r => (true, r) | _ => (false, s) end in
  match JS.read_digits 10 s1 0 0 with
  | (_, O, _) => None
  | (v, _, r) =>
      match s1, r with
      | String "0" (String c _), _ =>
          if JS.is_digit c then None
          else Some (JS.JNum (JS.Number_of_Z (if neg then - v else v) neg), r)
      | _, String "." _ | _, String "e" _ | _, String "E" _ => None
      | _, _ => Some (JS.JNum (JS.Number_of_Z (if neg then - v else v) neg), r)
      end
  end.

Fixpoint remove_key (k : string) (o : JS.obj) : JS.obj :=
  match o with
  | [] => []
  | (k', v) :: r => if k =? k' then remove_key k r else (k', v) :: remove_key k r
  end.

(** A member followed by the members [l]: a later member of the same
    name gives the value, the first occurrence gives the place. *)
Definition add_member (k : string) (v : JS.jsval) (l : JS.obj) : JS.obj :=
  match JS.lookup k l with
  | Some v' => (k, v') :: remove_key k l
  | None => (k, v) :: l
  end.

Fixpoint read_value (fuel : nat) (s : string) : option (JS.jsval * string) :=
  match fuel with
  | O => None
  | S f =>
      let s := skip_ws s in
      match s with
      | String "n" r => option_map (pair JS.JNull) (JS.strip_prefix "ull" r)
      | String "t" r => option_map (pair (JS.JBool true)) (JS.strip_prefix "rue" r)
      | String "f" r => option_map (pair (JS.JBool false)) (JS.strip_prefix "alse" r)
      | String "[" r =>
          match skip_ws r with
          | String "]" r' => Some (JS.JArr [], r')
          | r' => option_map (fun '(l, r'') => (JS.JArr l, r'')) (read_elems f r')
          end
      | String "{" r =>
          match skip_ws r with
          | String "}" r' => Some (JS.JObj [], r')
          | r' => option_map (fun '(l, r'') => (JS.JObj l, r'')) (read_members f r')
          end
      | String c r =>
          if Ascii.eqb c dquote
          then option_map (fun '(str, r') => (JS.JStr str, r')) (read_string r)
          else read_number s
      | EmptyString => None
      end
  end

with read_elems (fuel : nat) (s : string) : option (list JS.jsval * string) :=
  match fuel with
  | O => None
  | S f =>
      match read_value f s with
      | Some (v, r) =>
          match skip_ws r with
          | String "," r' =>
              option_map (fun '(l, r'') => (v :: l, r'')) (read_elems f r')
          | String "]" r' => Some ([v], r')
          | _ => None
          end
      | None => None
      end
  end

with read_members (fuel : nat) (s : string) : option (JS.obj * string) :=
  match fuel with
  | O => None
  | S f =>
      match skip_ws s with
      | String c r =>
          if Ascii.eqb c dquote then
            match read_string r with
            | Some (k, r1) =>
                match skip_ws r1 with
                | String ":" r2 =>
                    match read_value f r2 with
                    | Some (v, r3) =>
                        match skip_ws r3 with
                        | String "," r4 =>
                            option_map (fun '(l, r5) => (add_member k v l, r5))
                                       (read_members f r4)
                        | String "}" r4 => Some ([(k, v)], r4)
                        | _ => None
                        end
                    | None => None
                    end
                | _ => None
                end
            | None => None
            end
          else None
      | EmptyString => None
      end
  end.

Definition parse_json (text : string) : string + JS.jsval :=
  match read_value (2 * String.length text + 2) text with
  | Some (v, r) =>
      match skip_ws r with
      | EmptyString => inr v
      | _ => inl "Unexpected non-whitespace character after JSON"
      end
  | None => inl "Unexpected token in JSON"
  end.

(** Digits of integral Numbers below [10^21]; anything else is outside
    what the samples print. *)
Definition number_to_string (x : JS.number) : string :=
  match x with
  | S754_nan => "NaN"
  | S754_infinity s => if s then "-Infinity" else "Infinity"
  | _ =>
      match JS.integer_of_number x with
      | Some z => JS.BigInt_toString z
      | None => "?"
      end
  end.

(** Hexadecimal digits of integral Numbers. *)
Definition number_to_hex (x : JS.number) : string :=
  match JS.integer_of_number x with
  | Some z => JS.to_radix 16 (Z.abs z)
  | None => "?"
  end.

(** An environment whose endpoint always gives [answer]. *)
Definition env_answering (answer : string + JS.jsval) : Env :=
  {| httpRequest := fun _ => answer;
     JSON_parse := parse_json;
     Number_toString := number_to_string;
     Number_toString_radix16 := number_to_hex;
     NodeOperationError_message := JS.JStr;
     NodeApiError_message := fun m _ _ => m;
     NodeApiError_TypeError := fun _ => "message is not a string" |}.

Definition credentials : Credentials :=
  {| rpcEndpoint := Some "https://example.quiknode.pro/token/";
     network := JS.JStr "ethereum-mainnet" |}.

Definition endpoint : string := "https://example.quiknode.pro/token/".

Definition addr : string := "0x00000000219ab540356cBB839Cbe05303d7705Fa".

Definition hash : string :=
  "0x88e96d4537bea4d9c05d12549907b32561d3bf31f45aae734cdc119f13406cb6".

Definition getBalance_item (a : string) : Item :=
  {| operation := "getBalance"; address := a; block := None;
     blockIdentifier := "latest"; fullTransactions := false; txHash := "";
     to := ""; from := None; data := None; value := None;
     rpcMethod := ""; rpcParams := None |}.

Definition getBlock_item (ident : string) (full : bool) : Item :=
  {| operation := "getBlock"; address := ""; block := None;
     blockIdentifier := ident; fullTransactions := full; txHash := "";
     to := ""; from := None; data := None; value := None;
     rpcMethod := ""; rpcParams := None |}.

Definition estimateGas_item (to_ : string) (from_ data_ value_ : option string) : Item :=
  {| operation := "estimateGas"; address := ""; block := None;
     blockIdentifier := "latest"; fullTransactions := false; txHash := "";
     to := to_; from := from_; data := data_; value := value_;
     rpcMethod := ""; rpcParams := None |}.

Definition customRpc_item (method : string) (params : option string) : Item :=
  {| operation := "customRpc"; address := ""; block := None;
     blockIdentifier := "latest"; fullTransactions := false; txHash := "";
     to := ""; from := None; data := None; value := None;
     rpcMethod := method; rpcParams := params |}.

(** The text [[{"fromBlock":"latest"}]]. *)
Definition getLogs_params : string :=
  "[{" ++ q ++ "fromBlock" ++ q ++ ":" ++ q ++ "latest" ++ q ++ "}]".

Definition ok_response (result : JS.jsval) : JS.jsval :=
  JS.JObj [("jsonrpc", JS.JStr "2.0"); ("id", JS.JNum (JS.Number_of_Z 1 false));
           ("result", result)].


End Sample.


(** ** Further vocabulary *)

(** The values of the [operation] selector in the node description. *)
Definition operation_options : list string :=
  ["getBalance"; "getBlockNumber"; "getBlock"; "getTransaction";
   "getTransactionReceipt"; "getTransactionCount"; "getCode"; "getGasPrice";
   "estimateGas"; "call"; "customRpc"].

(** The method names written in the [switch]. *)
Definition fixed_methods : list string :=
  ["eth_getBalance"; "eth_blockNumber"; "eth_getBlockByHash";
   "eth_getBlockByNumber"; "eth_getTransactionByHash";
   "eth_getTransactionReceipt"; "eth_getTransactionCount"; "eth_getCode";
   "eth_gasPrice"; "eth_estimateGas"; "eth_call"].

(** The ids of the requests of a log, in order. *)
Definition request_ids (log : list RequestOptions) : list nat :=
  map (fun r => id (body r)) log.

(** Ids that grow strictly, all above [lo]. *)
Fixpoint increasing_from (lo : nat) (ids : list nat) : Prop :=
  match ids with
  | [] => True
  | x :: r => lo < x /\ increasing_from x r
  end.


(* ================================================================== *)
(** * Part 4: lemmas on the runtime fragment                           *)
(* ================================================================== *)

Local Open Scope Z_scope.

Section Strings.

Lemma append_assoc (a b c : string) :
    ((a ++ b) ++ c = a ++ (b ++ c))%string.
  Proof. induction a as [|x a IH]; simpl; [reflexivity | now rewrite IH]. Qed.

Lemma append_empty_r (a : string) : (a ++ "")%string = a.
  Proof. induction a as [|x a IH]; simpl; [reflexivity | now rewrite IH]. Qed.

Lemma length_append (a b : string) :
    String.length (a ++ b) = (String.length a + String.length b)%nat.
  Proof. induction a as [|x a IH]; simpl; [reflexivity | now rewrite IH]. Qed.

Lemma forallb_str_append (p : ascii -> bool) (a b : string) :
    JS.forallb_str p (a ++ b) = JS.forallb_str p a && JS.forallb_str p b.
  Proof.
    induction a as [|x a IH]; simpl; [reflexivity |].
    now rewrite IH, andb_assoc.
  Qed.

Lemma forallb_str_impl (p q : ascii -> bool) (s : string) :
    (forall c, p c = true -> q c = true) ->
    JS.forallb_str p s = true -> JS.forallb_str q s = true.
  Proof.
    intros Hpq. induction s as [|x s IH]; simpl; [reflexivity |].
    intros H. apply andb_true_iff in H. destruct H as [Hx Hs].
    rewrite (Hpq _ Hx), (IH Hs). reflexivity.
  Qed.

Lemma rev_str_app (s acc : string) :
    JS.rev_str s acc = (JS.rev_str s "" ++ acc)%string.
  Proof.
    revert acc. induction s as [|c s IH]; intros acc; simpl.
    - reflexivity.
    - rewrite IH. rewrite (IH (String c "")).
      rewrite append_assoc. reflexivity.
  Qed.

Lemma rev_str_snoc (s : string) (c : ascii) :
    JS.rev_str (s ++ String c "") "" = String c (JS.rev_str s "").
  Proof.
    induction s as [|d s IH]; simpl.
    - reflexivity.
    - rewrite (rev_str_app (s ++ String c "")), IH.
      rewrite (rev_str_app s (String d "")). reflexivity.
  Qed.

Lemma rev_str_involutive (s : string) :
    JS.rev_str (JS.rev_str s "") "" = s.
  Proof.
    induction s as [|c s IH]; simpl.
    - reflexivity.
    - rewrite (rev_str_app s (String c "")), rev_str_snoc, IH. reflexivity.
  Qed.

  (** A text is its reversal's reversal, so a non-empty text ends with
      the first character of its reversal. *)
Lemma rev_str_nonempty (c : ascii) (s : string) :
    exists d r, JS.rev_str (String c s) "" = String d r.
  Proof.
    revert c. induction s as [|x s IH]; intros c.
    - exists c, EmptyString. reflexivity.
    - simpl. destruct (IH x) as (d & r & E). simpl in E.
      rewrite rev_str_app. rewrite rev_str_app in E.
      destruct (JS.rev_str s "") as [|y t]; simpl in *.
      + eexists _, _. reflexivity.
      + eexists _, _. reflexivity.
  Qed.

Lemma forallb_str_rev (p : ascii -> bool) (s : string) :
    JS.forallb_str p (JS.rev_str s "") = JS.forallb_str p s.
  Proof.
    induction s as [|c s IH]; simpl; [reflexivity |].
    rewrite rev_str_app, forallb_str_append, IH. simpl.
    rewrite andb_true_r. apply andb_comm.
  Qed.

  (** ** Trimming leaves alone a text that begins and ends with visible
      ASCII characters. *)

Lemma plain_ws2_l a b : plain a = true -> JS.ws2 a b = false.
  Proof.
    unfold plain, JS.ws2. intros H. apply andb_true_iff in H. destruct H as [H _].
    apply Z.ltb_lt in H.
    destruct (Z.eqb_spec (JS.code a) 194); [lia | reflexivity].
  Qed.

Lemma plain_ws2_r a b : plain b = true -> JS.ws2 a b = false.
  Proof.
    unfold plain, JS.ws2. intros H. apply andb_true_iff in H. destruct H as [H _].
    apply Z.ltb_lt in H.
    destruct (Z.eqb_spec (JS.code b) 160); [lia | apply andb_false_r].
  Qed.

Lemma plain_ws3_l a b c : plain a = true -> JS.ws3 a b c = false.
  Proof.
    unfold plain, JS.ws3. intros H. apply andb_true_iff in H. destruct H as [H _].
    apply Z.ltb_lt in H.
    destruct (Z.eqb_spec (JS.code a) 225); [lia |].
    destruct (Z.eqb_spec (JS.code a) 226); [lia |].
    destruct (Z.eqb_spec (JS.code a) 227); [lia |].
    destruct (Z.eqb_spec (JS.code a) 239); [lia |].
    reflexivity.
  Qed.

Lemma plain_ws3_r a b c : plain c = true -> JS.ws3 a b c = false.
  Proof.
    unfold plain, JS.ws3, JS.in_range.
    intros H. apply andb_true_iff in H. destruct H as [H _].
    apply Z.ltb_lt in H.
    destruct (Z.eqb_spec (JS.code c) 128); [lia |].
    destruct (Z.eqb_spec (JS.code c) 168); [lia |].
    destruct (Z.eqb_spec (JS.code c) 169); [lia |].
    destruct (Z.eqb_spec (JS.code c) 175); [lia |].
    destruct (Z.eqb_spec (JS.code c) 159); [lia |].
    destruct (Z.eqb_spec (JS.code c) 191); [lia |].
    destruct (Z.leb_spec 128 (JS.code c)); [lia |].
    simpl. rewrite !andb_false_r. reflexivity.
  Qed.

Lemma trim_start_plain (a : ascii) (r : string) :
    plain a = true -> JS.trim_start (String a r) = String a r.
  Proof.
    intros H. simpl.
    assert (W : JS.is_ascii_ws a = false).
    { unfold plain in H. apply andb_true_iff in H. destruct H as [_ H].
      now apply negb_true_iff in H. }
    rewrite W. destruct r as [|b r]; [reflexivity |].
    rewrite (plain_ws2_l a b H). destruct r as [|c r]; [reflexivity |].
    rewrite (plain_ws3_l a b c H). reflexivity.
  Qed.

Lemma trim_start_rev_plain (a : ascii) (r : string) :
    plain a = true -> JS.trim_start_rev (String a r) = String a r.
  Proof.
    intros H. simpl.
    assert (W : JS.is_ascii_ws a = false).
    { unfold plain in H. apply andb_true_iff in H. destruct H as [_ H].
      now apply negb_true_iff in H. }
    rewrite W. destruct r as [|b r]; [reflexivity |].
    rewrite (plain_ws2_r b a H). destruct r as [|c r]; [reflexivity |].
    rewrite (plain_ws3_r c b a H). reflexivity.
  Qed.

Lemma trim_plain (s : string) :
    JS.forallb_str plain s = true -> JS.trim s = s.
  Proof.
    intros H. unfold JS.trim. destruct s as [|a r]; [reflexivity |].
    pose proof H as H0. simpl in H0. apply andb_true_iff in H0. destruct H0 as [Ha _].
    rewrite (trim_start_plain a r Ha).
    destruct (rev_str_nonempty a r) as (d & t & E).
    assert (Hd : plain d = true).
    { rewrite <- forallb_str_rev in H. rewrite E in H. simpl in H.
      apply andb_true_iff in H. tauto. }
    rewrite E, (trim_start_rev_plain d t Hd), <- E.
    apply rev_str_involutive.
  Qed.

End Strings.

Section Numerals.

Ltac small_cases d :=
    let H := fresh in
    assert (H : d = 0 \/ d = 1 \/ d = 2 \/ d = 3 \/ d = 4 \/ d = 5 \/ d = 6 \/ d = 7
                \/ d = 8 \/ d = 9 \/ d = 10 \/ d = 11 \/ d = 12 \/ d = 13
                \/ d = 14 \/ d = 15) by lia;
    repeat (destruct H as [H | H]; [subst d |]); [.. | subst d].

Lemma digit_in_digit_char (radix d : Z) :
    0 <= d < radix -> radix <= 16 -> JS.digit_in radix (JS.digit_char d) = Some d.
  Proof.
    intros Hd Hr. small_cases d;
      unfold JS.digit_in; simpl;
      match goal with
      | |- (if ?x <? radix then _ else _) = _ =>
          destruct (Z.ltb_spec x radix); [reflexivity | lia]
      end.
  Qed.

Lemma digit_char_lower_hex (d : Z) :
    0 <= d < 16 -> is_lower_hex (JS.digit_char d) = true.
  Proof. intros Hd. small_cases d; reflexivity. Qed.

Lemma digit_char_is_digit (d : Z) :
    0 <= d < 10 -> JS.is_digit (JS.digit_char d) = true.
  Proof. intros Hd. small_cases d; try reflexivity; lia. Qed.

Lemma digit_char_zero (d : Z) :
    0 <= d < 16 -> JS.digit_char d = "0"%char -> d = 0.
  Proof. intros Hd. small_cases d; intros E; try reflexivity; discriminate E. Qed.

Lemma reads_single (radix d : Z) :
    0 <= d < radix -> radix <= 16 -> reads radix (String (JS.digit_char d) "") d.
  Proof.
    intros Hd Hr rest a k.
    cbn [String.append JS.read_digits String.length].
    rewrite (digit_in_digit_char radix d Hd Hr).
    change (Z.of_nat 1) with 1. rewrite Z.pow_1_r.
    now rewrite Nat.add_1_r.
  Qed.

Lemma reads_snoc (radix : Z) (ds : string) (n d : Z) :
    0 <= d < radix -> radix <= 16 ->
    reads radix ds n ->
    reads radix (ds ++ String (JS.digit_char d) "") (n * radix + d).
  Proof.
    intros Hd Hr H rest a k.
    rewrite append_assoc, H. simpl.
    rewrite (digit_in_digit_char radix d Hd Hr).
    rewrite length_append, Nat2Z.inj_add, Z.pow_add_r by lia.
    cbn [String.length]. change (Z.of_nat 1) with 1. rewrite Z.pow_1_r.
    replace (a * (radix ^ Z.of_nat (String.length ds) * radix) + (n * radix + d))
      with ((a * radix ^ Z.of_nat (String.length ds) + n) * radix + d) by ring.
    f_equal. lia.
  Qed.

  (** What [to_radix_aux] puts in front of the accumulator. *)
Lemma to_radix_aux_spec (radix : Z) (lower : ascii -> bool) :
    2 <= radix <= 16 ->
    (forall d, 0 <= d < radix -> lower (JS.digit_char d) = true) ->
    forall (fuel : nat) (n : Z) (acc : string),
      0 <= n < 2 ^ Z.of_nat fuel -> (1 <= fuel)%nat ->
      exists ds,
        JS.to_radix_aux fuel radix n acc = (ds ++ acc)%string
        /\ ds <> EmptyString
        /\ JS.forallb_str lower ds = true
        /\ reads radix ds n
        /\ (forall r, ds = String "0" r -> n = 0 /\ r = EmptyString).
  Proof.
    intros Hr Hlow. induction fuel as [|f IH]; intros n acc Hn Hf; [lia |].
    simpl JS.to_radix_aux.
    assert (Hmod : 0 <= n mod radix < radix) by (apply Z.mod_pos_bound; lia).
    destruct (Z.eqb_spec (n / radix) 0) as [Hq | Hq].
    - assert (En : n mod radix = n).
      { rewrite (Z.div_mod n radix) at 2 by lia. rewrite Hq. lia. }
      exists (String (JS.digit_char (n mod radix)) "").
      split; [reflexivity |]. split; [discriminate |].
      split; [simpl; now rewrite (Hlow _ Hmod) |].
      split.
      + rewrite <- En at 2. apply reads_single; lia.
      + intros r E. injection E as E1 E2.
        split; [| now symmetry].
        rewrite <- En. apply digit_char_zero; [lia | assumption].
    - assert (Hq0 : 0 < n / radix).
      { assert (0 <= n / radix) by (apply Z.div_pos; lia). lia. }
      assert (Hq1 : n / radix < 2 ^ Z.of_nat f).
      { apply Z.div_lt_upper_bound; [lia |].
        rewrite Nat2Z.inj_succ, Z.pow_succ_r in Hn by lia.
        assert (0 < 2 ^ Z.of_nat f) by (apply Z.pow_pos_nonneg; lia). nia. }
      assert (Hf1 : (1 <= f)%nat).
      { destruct f; [simpl in Hq1; lia | lia]. }
      destruct (IH (n / radix) (String (JS.digit_char (n mod radix)) acc))
        as (ds & E & Hne & Hall & Hreads & Hzero); [lia | assumption |].
      exists (ds ++ String (JS.digit_char (n mod radix)) "")%string.
      split; [rewrite E, append_assoc; reflexivity |].
      split; [destruct ds; [congruence | discriminate] |].
      split; [rewrite forallb_str_append, Hall; simpl; now rewrite (Hlow _ Hmod) |].
      split.
      + replace n with (n / radix * radix + n mod radix) at 2
          by (rewrite (Z.div_mod n radix) at 3 by lia; lia).
        apply reads_snoc; [lia | lia | assumption].
      + intros r Er. destruct ds as [|c ds]; [congruence |].
        simpl in Er. injection Er as Ec _. subst c.
        destruct (Hzero ds eq_refl) as [Hz _]. lia.
  Qed.

Lemma to_radix_fuel (n : Z) :
    0 <= n -> n < 2 ^ Z.of_nat (S (Z.to_nat (Z.log2 n))).
  Proof.
    intros Hn. rewrite Nat2Z.inj_succ, Z2Nat.id by apply Z.log2_nonneg.
    destruct (Z.eq_dec n 0) as [-> | Hz]; [reflexivity |].
    apply Z.log2_spec. lia.
  Qed.

  (** [to_radix] writes the canonical numeral. *)
Lemma to_radix_numeral (radix : Z) (lower : ascii -> bool) (n : Z) :
    2 <= radix <= 16 ->
    (forall d, 0 <= d < radix -> lower (JS.digit_char d) = true) ->
    0 <= n ->
    numeral_of radix lower n (JS.to_radix radix n).
  Proof.
    intros Hr Hlow Hn. unfold JS.to_radix.
    destruct (to_radix_aux_spec radix lower Hr Hlow
                (S (Z.to_nat (Z.log2 n))) n "")
      as (ds & E & Hne & Hall & Hreads & Hzero);
      [split; [assumption | now apply to_radix_fuel] | lia |].
    rewrite E, append_empty_r. split; [assumption |]. split.
    - unfold JS.read_all. rewrite <- (append_empty_r ds), Hreads. simpl.
      destruct ds as [|c ds]; [congruence | reflexivity].
    - intros r Er. now destruct (Hzero r Er).
  Qed.

Lemma to_radix_hex (n : Z) :
    0 <= n -> numeral_of 16 is_lower_hex n (JS.to_radix 16 n).
  Proof.
    intros Hn. apply to_radix_numeral; [lia | | assumption].
    intros d Hd. now apply digit_char_lower_hex.
  Qed.

Lemma to_radix_decimal (n : Z) :
    0 <= n -> numeral_of 10 JS.is_digit n (JS.to_radix 10 n).
  Proof.
    intros Hn. apply to_radix_numeral; [lia | | assumption].
    intros d Hd. now apply digit_char_is_digit.
  Qed.

End Numerals.

Section Numbers.

Lemma digits2_pos_spec (p : positive) :
  2 ^ (Zpos (digits2_pos p) - 1) <= Zpos p < 2 ^ Zpos (digits2_pos p).
Proof.
  induction p as [p IH | p IH |]; simpl digits2_pos.
  - rewrite Pos2Z.inj_succ.
    replace (Z.succ (Zpos (digits2_pos p)) - 1) with (Z.succ (Zpos (digits2_pos p) - 1)) by lia.
    rewrite !Z.pow_succ_r by lia. lia.
  - rewrite Pos2Z.inj_succ.
    replace (Z.succ (Zpos (digits2_pos p)) - 1) with (Z.succ (Zpos (digits2_pos p) - 1)) by lia.
    rewrite !Z.pow_succ_r by lia. lia.
  - simpl. lia.
Qed.

Lemma digits2_pos_unique (p : positive) (d : Z) :
  2 ^ (d - 1) <= Zpos p < 2 ^ d -> 0 < d -> Zpos (digits2_pos p) = d.
Proof.
  intros H Hd. pose proof (digits2_pos_spec p) as S.
  set (e := Zpos (digits2_pos p)) in *.
  assert (He : 0 < e) by (unfold e; lia).
  destruct (Z.lt_trichotomy e d) as [L | [E | G]]; [| assumption |].
  - exfalso. assert (2 ^ e <= 2 ^ (d - 1)) by (apply Z.pow_le_mono_r; lia). lia.
  - exfalso. assert (2 ^ d <= 2 ^ (e - 1)) by (apply Z.pow_le_mono_r; lia). lia.
Qed.

Lemma iter_xO (p k : positive) :
  Zpos (Pos.iter xO p k) = Zpos p * 2 ^ Zpos k.
Proof.
  revert p. induction k as [| k IH] using Pos.peano_ind; intros p.
  - simpl. lia.
  - rewrite Pos.iter_succ, Pos2Z.inj_xO, IH, Pos2Z.inj_succ, Z.pow_succ_r by lia. ring.
Qed.


Lemma binary_round_aux_exact (sx : bool) (mz : positive) (ez : Z) :
  Zpos (digits2_pos mz) = 53 -> -1074 <= ez <= 971 ->
  binary_round_aux JS.prec JS.emax sx (Zpos mz) ez loc_Exact = S754_finite sx mz ez.
Proof.
  intros Hd He.
  assert (Ef : fexp JS.prec JS.emax (53 + ez) - ez = 0).
  { unfold fexp, emin, JS.prec, JS.emax. lia. }
  unfold binary_round_aux, shr_fexp.
  cbn [Zdigits2 shr_record_of_loc]. rewrite Hd, Ef.
  cbn [shr shr_m loc_of_shr_record round_nearest_even Zdigits2 shr_record_of_loc shr_r shr_s].
  rewrite Hd, Ef. cbn [shr shr_m].
  unfold JS.emax, JS.prec.
  destruct (Z.leb_spec ez (1024 - 53)); [reflexivity | lia].
Qed.

Lemma Number_of_Z_exact (p : positive) :
  Zpos p < 2 ^ 53 ->
  exists m e, JS.Number_of_Z (Zpos p) false = S754_finite false m e
    /\ -52 <= e <= 0 /\ Zpos m = Zpos p * 2 ^ (- e).
Proof.
  intros Hp.
  pose proof (digits2_pos_spec p) as Hd.
  unfold JS.Number_of_Z, binary_normalize, binary_round.
  rewrite Z.add_0_r.
  remember (Zpos (digits2_pos p)) as d eqn:Ed.
  assert (Hd53 : 0 < d <= 53).
  { split; [lia |].
    destruct (Z.le_gt_cases d 53) as [L | G]; [assumption | exfalso].
    assert (2 ^ 53 <= 2 ^ (d - 1)) by (apply Z.pow_le_mono_r; lia). lia. }
  assert (Ef : fexp JS.prec JS.emax d = d - 53).
  { unfold fexp, emin, JS.prec, JS.emax. lia. }
  rewrite Ef. unfold shl_align.
  destruct (d - 53 - 0) as [| k | k] eqn:Ek; [| lia |].
  - exists p, 0. rewrite binary_round_aux_exact; [| lia | lia].
    split; [reflexivity |]. split; [lia |]. simpl. lia.
  - assert (Hk : Zpos k = 53 - d) by lia.
    exists (Pos.iter xO p k), (d - 53).
    rewrite binary_round_aux_exact; [| | lia].
    + split; [reflexivity |]. split; [lia |].
      rewrite iter_xO. f_equal. f_equal. lia.
    + apply digits2_pos_unique; [| lia].
      rewrite iter_xO, Hk.
      assert (A : 2 ^ (53 - 1) = 2 ^ (d - 1) * 2 ^ (53 - d))
        by (rewrite <- Z.pow_add_r by lia; f_equal; lia).
      assert (B : 2 ^ 53 = 2 ^ d * 2 ^ (53 - d))
        by (rewrite <- Z.pow_add_r by lia; f_equal; lia).
      assert (0 < 2 ^ (53 - d)) by (apply Z.pow_pos_nonneg; lia).
      rewrite A, B.
      split; [apply Z.mul_le_mono_nonneg_r | apply Z.mul_lt_mono_pos_r]; lia.
Qed.

Lemma Number_toString16_exact (engine_digits : JS.number -> string) (n : Z) :
  0 <= n < 2 ^ 53 ->
  JS.Number_toString16 engine_digits (JS.Number_of_Z n false) = JS.to_radix 16 n.
Proof.
  intros Hn. destruct n as [| p | p]; [reflexivity | | lia].
  destruct (Number_of_Z_exact p) as (m & e & E & He & Hm); [lia |].
  rewrite E. unfold JS.Number_toString16.
  assert (Hle : (Zpos p <=? 2 ^ 53) = true) by (apply Z.leb_le; lia).
  destruct (Z.leb_spec 0 e) as [L | L].
  - assert (e = 0) by lia. subst e. simpl in Hm. rewrite Z.shiftl_0_r.
    replace (Zpos m) with (Zpos p) by lia. now rewrite Hle.
  - assert (Hs : Z.shiftr (Zpos m) (- e) = Zpos p).
    { rewrite Hm, Z.shiftr_div_pow2 by lia. apply Z.div_mul.
      apply Z.pow_nonzero; lia. }
    assert (Hl : Z.land (Zpos m) (Z.ones (- e)) = 0).
    { rewrite Z.land_ones by lia. rewrite Hm. apply Z.mod_mul.
      apply Z.pow_nonzero; lia. }
    rewrite Hs, Hl. cbv iota beta. change (0 =? 0) with true. cbv iota.
    now rewrite Hle.
Qed.

Lemma is_digit_plain c : JS.is_digit c = true -> plain c = true.
Proof.
  unfold JS.is_digit, plain, JS.is_ascii_ws, JS.in_range. intros H.
  apply andb_true_iff in H. destruct H as [H1 H2].
  apply Z.leb_le in H1. apply Z.leb_le in H2.
  destruct (Z.ltb_spec (JS.code c) 128); [| lia].
  destruct (Z.leb_spec (JS.code c) 13); [lia |].
  destruct (Z.eqb_spec (JS.code c) 32); [lia |].
  now rewrite andb_false_r.
Qed.

Lemma is_hex_plain c : JS.is_hex c = true -> plain c = true.
Proof.
  unfold JS.is_hex, plain, JS.is_ascii_ws, JS.in_range. intros H.
  destruct (Z.ltb_spec (JS.code c) 128) as [L | L].
  - destruct (Z.leb_spec (JS.code c) 13) as [L1 | L1].
    + exfalso.
      destruct (Z.leb_spec 97 (JS.code c)); [lia |].
      destruct (Z.leb_spec 65 (JS.code c)); [lia |].
      destruct (Z.leb_spec 48 (JS.code c)); [lia |].
      discriminate H.
    + destruct (Z.eqb_spec (JS.code c) 32) as [E | E].
      * exfalso. rewrite E in H. discriminate H.
      * now rewrite andb_false_r.
  - exfalso.
    destruct (Z.leb_spec (JS.code c) 102); [lia |].
    destruct (Z.leb_spec (JS.code c) 70); [lia |].
    destruct (Z.leb_spec (JS.code c) 57); [lia |].
    rewrite !andb_false_r in H. discriminate H.
Qed.

Lemma is_digit_digit_in c : JS.is_digit c = true -> JS.digit_in 10 c = Some (JS.code c - 48).
Proof.
  unfold JS.is_digit, JS.digit_in, JS.digit_value. intros H. rewrite H.
  unfold JS.in_range in H. apply andb_true_iff in H. destruct H as [H1 H2].
  apply Z.leb_le in H1. apply Z.leb_le in H2.
  destruct (Z.ltb_spec (JS.code c - 48) 10); [reflexivity | lia].
Qed.

Lemma is_hex_digit_in c : JS.is_hex c = true -> exists d, JS.digit_in 16 c = Some d.
Proof.
  unfold JS.is_hex, JS.digit_in, JS.digit_value, JS.in_range. intros H.
  destruct (Z.leb_spec 48 (JS.code c)); destruct (Z.leb_spec (JS.code c) 57);
    destruct (Z.leb_spec 97 (JS.code c)); destruct (Z.leb_spec (JS.code c) 102);
    destruct (Z.leb_spec 65 (JS.code c)); destruct (Z.leb_spec (JS.code c) 70);
    destruct (Z.leb_spec (JS.code c) 122); destruct (Z.leb_spec (JS.code c) 90);
    simpl in *; try discriminate H; try lia;
    match goal with
    | |- exists d, (if ?x <? 16 then _ else _) = _ =>
        destruct (Z.ltb_spec x 16); [eexists; reflexivity | lia]
    end.
Qed.

Lemma read_digits_all (radix : Z) (ok : ascii -> bool) (s : string) :
  (forall c, ok c = true -> exists d, JS.digit_in radix c = Some d) ->
  JS.forallb_str ok s = true ->
  forall acc k, exists v, JS.read_digits radix s acc k = (v, (k + String.length s)%nat, EmptyString).
Proof.
  intros Hok. induction s as [|c s IH]; intros H acc k.
  - exists acc. simpl. now rewrite Nat.add_0_r.
  - simpl in H. apply andb_true_iff in H. destruct H as [Hc Hs].
    destruct (Hok c Hc) as (d & Ed). simpl. rewrite Ed.
    destruct (IH Hs (acc * radix + d) (S k)) as (v & Ev).
    exists v. rewrite Ev. f_equal. f_equal. simpl. lia.
Qed.

Lemma digit_in_nonneg radix c d : JS.digit_in radix c = Some d -> 0 <= d.
Proof.
  unfold JS.digit_in, JS.digit_value, JS.in_range.
  destruct (Z.leb_spec 48 (JS.code c)); destruct (Z.leb_spec 97 (JS.code c));
    destruct (Z.leb_spec 65 (JS.code c));
    destruct (JS.code c <=? 57); destruct (JS.code c <=? 122);
    destruct (JS.code c <=? 90); simpl;
    try discriminate;
    match goal with
    | |- (if ?x <? radix then _ else _) = _ -> _ =>
        destruct (x <? radix); [intros E; injection E as <-; lia | discriminate]
    end.
Qed.

Lemma read_digits_nonneg radix s : 0 <= radix ->
  forall acc k, 0 <= acc -> 0 <= fst (fst (JS.read_digits radix s acc k)).
Proof.
  intros Hr. induction s as [|c s IH]; intros acc k Hacc; simpl; [assumption |].
  destruct (JS.digit_in radix c) as [d|] eqn:E; simpl; [| assumption].
  apply IH. pose proof (digit_in_nonneg _ _ _ E). nia.
Qed.

Lemma decimal_value_nonneg s : 0 <= decimal_value s.
Proof. apply read_digits_nonneg; lia. Qed.

Lemma parseInt_digits s :
  all_digits s = true -> JS.parseInt s 10 = JS.Number_of_Z (decimal_value s) false.
Proof.
  unfold all_digits. intros H. destruct s as [|a r]; [discriminate H |].
  simpl in H. pose proof H as H0. apply andb_true_iff in H0. destruct H0 as [Ha Hr].
  unfold JS.parseInt. rewrite (trim_start_plain a r (is_digit_plain a Ha)).
  destruct (Ascii.eqb_spec a "-") as [-> | _]; [discriminate Ha |].
  destruct (Ascii.eqb_spec a "+") as [-> | _]; [discriminate Ha |].
  change (10 =? 16) with false. cbv iota.
  unfold decimal_value.
  destruct (read_digits_all 10 JS.is_digit (String a r)) with (acc := 0) (k := 0%nat)
    as (v & Ev).
  - intros c Hc. eexists. now apply is_digit_digit_in.
  - exact H.
  - rewrite Ev. reflexivity.
Qed.

Lemma StringToBigInt_hex (h : string) :
  h <> EmptyString -> JS.forallb_str JS.is_hex h = true ->
  exists n, JS.read_all 16 h = Some n /\ 0 <= n
            /\ JS.StringToBigInt ("0x" ++ h) = Some n.
Proof.
  intros Hne Hh.
  destruct (read_digits_all 16 JS.is_hex h is_hex_digit_in Hh 0 0%nat) as (v & Ev).
  assert (Hv : 0 <= v).
  { pose proof (read_digits_nonneg 16 h ltac:(lia) 0 0%nat ltac:(lia)) as P.
    rewrite Ev in P. exact P. }
  assert (Er : JS.read_all 16 h = Some v).
  { unfold JS.read_all. rewrite Ev. destruct h; [congruence | reflexivity]. }
  exists v. split; [assumption |]. split; [assumption |].
  unfold JS.StringToBigInt. rewrite trim_plain.
  - simpl. exact Er.
  - simpl. apply (forallb_str_impl _ _ _ is_hex_plain Hh).
Qed.

End Numbers.

(* ================================================================== *)
(** * Part 5: lemmas on the execution                                  *)
(* ================================================================== *)

Local Close Scope Z_scope.

Ltac unfold_M :=
  unfold process_item, bind, lift, lift_js, await_httpRequest, throw, ret, try_catch.

Section Execution.

Variable env : Env.
Variable credentials : Credentials.
Variable ep : string.

Lemma process_item_log (i : nat) (it : Item) (log : list RequestOptions) :
    process_item env credentials ep i it log
    = ((log ++ item_requests env credentials ep i it)%list,
       item_outcome env credentials ep i it).
  Proof.
    unfold item_requests, item_outcome. unfold_M.
    destruct (build_request env i it) as [e | [m ps]]; simpl.
    - now rewrite app_nil_r.
    - destruct (httpRequest env (request_options ep m ps i)) as [msg | response]; simpl;
        [reflexivity |].
      destruct (JS.get response "error") as [e | error]; simpl; [reflexivity |].
      destruct (JS.truthy error); simpl.
      + destruct (JS.get error "message") as [e | msg]; simpl; [reflexivity |].
        destruct (JS.get error "code") as [e | code]; simpl; reflexivity.
      + destruct (JS.get response "result") as [e | result]; simpl; [reflexivity |].
        destruct (shape env (operation it) m (network credentials) result); reflexivity.
  Qed.

Lemma item_requests_built (i : nat) (it : Item) (m : string) (ps : list JS.jsval) :
    build_request env i it = inr (m, ps) ->
    item_requests env credentials ep i it = [request_options ep m ps i].
  Proof.
    intros Hb. unfold item_requests. unfold_M. rewrite Hb. simpl.
    destruct (httpRequest env (request_options ep m ps i)) as [msg | response]; simpl;
      [reflexivity |].
    destruct (JS.get response "error") as [e | error]; simpl; [reflexivity |].
    destruct (JS.truthy error); simpl.
    - destruct (JS.get error "message") as [e | msg]; simpl; [reflexivity |].
      destruct (JS.get error "code") as [e | code]; simpl; reflexivity.
    - destruct (JS.get response "result") as [e | result]; simpl; [reflexivity |].
      destruct (shape env (operation it) m (network credentials) result); reflexivity.
  Qed.

Lemma item_requests_failed (i : nat) (it : Item) (e : NodeError) :
    build_request env i it = inl e ->
    item_requests env credentials ep i it = []
    /\ item_outcome env credentials ep i it = inl e.
  Proof.
    intros Hb. unfold item_requests, item_outcome. unfold_M. rewrite Hb. now split.
  Qed.

Lemma item_requests_id (i : nat) (it : Item) (r : RequestOptions) :
    In r (item_requests env credentials ep i it) ->
    id (body r) = i + 1 /\ url r = ep.
  Proof.
    destruct (build_request env i it) as [e | [m ps]] eqn:Hb.
    - destruct (item_requests_failed i it e Hb) as [-> _]. intros [].
    - rewrite (item_requests_built i it m ps Hb). intros [<- | []]. now split.
  Qed.

Lemma run_items_tolerant (items : list Item) :
    forall (i : nat) (acc : list ExecutionData) (log : list RequestOptions),
      run_items env true credentials ep items i acc log
      = ((log ++ requests_from env credentials ep i items)%list,
         inr (acc ++ records_from env credentials ep i items)%list).
  Proof.
    induction items as [|it rest IH]; intros i acc log.
    - simpl. unfold ret. now rewrite !app_nil_r.
    - cbn [run_items requests_from records_from].
      unfold bind, try_catch. rewrite process_item_log.
      unfold item_record.
      destruct (item_outcome env credentials ep i it) as [e | d];
        unfold ret; rewrite IH, <- !app_assoc; reflexivity.
  Qed.

Lemma records_from_length (items : list Item) (i : nat) :
    List.length (records_from env credentials ep i items) = List.length items.
  Proof.
    revert i. induction items as [|it rest IH]; intros i; simpl; [reflexivity |].
    now rewrite IH.
  Qed.

Lemma records_from_nth (items : list Item) :
    forall (i k : nat) (it : Item),
      nth_error items k = Some it ->
      nth_error (records_from env credentials ep i items) k
      = Some (item_record env credentials ep (i + k) it).
  Proof.
    induction items as [|x rest IH]; intros i k it Hk.
    - destruct k; discriminate Hk.
    - destruct k as [|k]; simpl in *.
      + injection Hk as ->. now rewrite Nat.add_0_r.
      + rewrite (IH (S i) k it Hk). f_equal. f_equal. lia.
  Qed.

Lemma run_items_strict (pre : list Item) (it : Item) (post : list Item) (e : NodeError) :
    forall (i : nat) (acc : list ExecutionData) (log : list RequestOptions),
      all_succeed env credentials ep i pre = true ->
      item_outcome env credentials ep (i + List.length pre) it = inl e ->
      run_items env false credentials ep (pre ++ it :: post) i acc log
      = ((log ++ requests_from env credentials ep i (pre ++ [it]))%list, inl e).
  Proof.
    induction pre as [|x pre IH]; intros i acc log Hpre Hit.
    - simpl in *. rewrite Nat.add_0_r in Hit.
      unfold bind, try_catch. rewrite process_item_log, Hit.
      unfold throw. now rewrite app_nil_r.
    - cbn [app run_items requests_from all_succeed] in *.
      apply andb_true_iff in Hpre. destruct Hpre as [Hx Hpre].
      unfold succeeds in Hx.
      unfold bind, try_catch. rewrite process_item_log.
      destruct (item_outcome env credentials ep i x) as [e' | d]; [discriminate Hx |].
      rewrite (IH (S i) _ _ Hpre), <- app_assoc; [reflexivity |].
      simpl in Hit. now rewrite Nat.add_succ_r in Hit.
  Qed.

Lemma requests_from_id (items : list Item) :
    forall (i : nat) (r : RequestOptions),
      In r (requests_from env credentials ep i items) ->
      i + 1 <= id (body r) <= i + List.length items.
  Proof.
    induction items as [|x rest IH]; intros i r Hr; simpl in *; [contradiction |].
    apply in_app_or in Hr. destruct Hr as [Hr | Hr].
    - destruct (item_requests_id i x r Hr) as [-> _]. lia.
    - specialize (IH (S i) r Hr). lia.
  Qed.

End Execution.

Section Shape.

Variable env : Env.

Lemma obj_set_base (k : string) (v : JS.jsval) method network result rd :
    (k =? "result") = false -> (k =? "method") = false -> (k =? "network") = false ->
    base_fields method network result rd ->
    base_fields method network result (JS.obj_set k v rd).
  Proof.
    intros H1 H2 H3 (rest & ->). simpl. rewrite H1, H2, H3.
    eexists. reflexivity.
  Qed.

Lemma add_decimal_base k method network result rd :
    (k =? "result") = false -> (k =? "method") = false -> (k =? "network") = false ->
    base_fields method network result rd ->
    base_fields method network result (add_decimal env k result rd).
  Proof. intros. unfold add_decimal. now apply obj_set_base. Qed.

Lemma add_scaled_base k1 k2 unit digits method network result rd rd' :
    (k1 =? "result") = false -> (k1 =? "method") = false -> (k1 =? "network") = false ->
    (k2 =? "result") = false -> (k2 =? "method") = false -> (k2 =? "network") = false ->
    base_fields method network result rd ->
    add_scaled env k1 k2 unit digits result rd = inr rd' ->
    base_fields method network result rd'.
  Proof.
    intros ? ? ? ? ? ? Hb. unfold add_scaled.
    destruct (JS.BigInt (Number_toString env) result) as [e | w]; [discriminate |].
    intros E. injection E as <-. apply obj_set_base; try assumption.
    now apply obj_set_base.
  Qed.

Lemma shape_base operation method network result rd :
    shape env operation method network result = inr rd ->
    base_fields method network result rd.
  Proof.
    unfold shape.
    set (rd0 := [("result", result); ("method", JS.JStr method); ("network", network)]).
    assert (B0 : base_fields method network result rd0) by (exists []; reflexivity).
    clearbody rd0.
    destruct (if (operation =? "getBalance") && JS.truthy result
              then add_scaled env "balanceWei" "balanceEth" JS.lit_1e18 18 result rd0
              else inr rd0) as [e | rd1] eqn:E1; [discriminate |].
    assert (B1 : base_fields method network result rd1).
    { destruct ((operation =? "getBalance") && JS.truthy result).
      - eapply add_scaled_base; [.. | exact B0 | exact E1]; reflexivity.
      - injection E1 as <-. exact B0. }
    set (rd2 := if (operation =? "getBlockNumber") && JS.truthy result
                then add_decimal env "blockNumberDecimal" result rd1 else rd1).
    assert (B2 : base_fields method network result rd2).
    { unfold rd2. destruct ((operation =? "getBlockNumber") && JS.truthy result);
        [apply add_decimal_base; [reflexivity .. | exact B1] | exact B1]. }
    clearbody rd2.
    destruct (if (operation =? "getGasPrice") && JS.truthy result
              then add_scaled env "gasPriceWei" "gasPriceGwei" JS.lit_1e9 9 result rd2
              else inr rd2) as [e | rd3] eqn:E3; [discriminate |].
    assert (B3 : base_fields method network result rd3).
    { destruct ((operation =? "getGasPrice") && JS.truthy result).
      - eapply add_scaled_base; [.. | exact B2 | exact E3]; reflexivity.
      - injection E3 as <-. exact B2. }
    intros E. injection E as <-.
    destruct ((operation =? "getTransactionCount") && JS.truthy result);
      destruct ((operation =? "estimateGas") && JS.truthy result);
      repeat (apply add_decimal_base; [reflexivity .. |]); exact B3.
  Qed.

Lemma shape_falsy operation method network result :
    JS.truthy result = false ->
    shape env operation method network result
    = inr [("result", result); ("method", JS.JStr method); ("network", network)].
  Proof.
    intros F. unfold shape. rewrite F, !andb_false_r. reflexivity.
  Qed.

Variable credentials : Credentials.
Variable ep : string.

Lemma item_outcome_ok (i : nat) (it : Item) (d : ExecutionData) :
    item_outcome env credentials ep i it = inr d ->
    pairedItem d = i /\ is_error_record d = false.
  Proof.
    unfold item_outcome. unfold_M.
    destruct (build_request env i it) as [e | [m ps]]; simpl; [discriminate |].
    destruct (httpRequest env (request_options ep m ps i)) as [msg | response]; simpl;
      [discriminate |].
    destruct (JS.get response "error") as [e | error]; simpl; [discriminate |].
    destruct (JS.truthy error); simpl.
    - destruct (JS.get error "message") as [e | msg]; simpl; [discriminate |].
      destruct (JS.get error "code") as [e | code]; simpl; discriminate.
    - destruct (JS.get response "result") as [e | result]; simpl; [discriminate |].
      destruct (shape env (operation it) m (network credentials) result) as [e | rd] eqn:Es;
        simpl; [discriminate |].
      intros E. injection E as <-. split; [reflexivity |].
      destruct (shape_base _ _ _ _ _ Es) as (rest & ->). reflexivity.
  Qed.

End Shape.

(* ================================================================== *)
(** * Part 6: the properties                                           *)
(* ================================================================== *)



(** C9.  When the call goes through and the [result] read from the
    response is absent, null or the empty string, the item still yields a
    success record, made of [result], [method] and [network] only; this holds
    for every operation, in particular for the five that derive fields. *)
Theorem falsy_result_adds_no_derived_field
        (env : Env) (credentials : Credentials) (ep : string) (i : nat) (it : Item)
        (log : list RequestOptions) (method : string) (params : list JS.jsval)
        (response error result : JS.jsval) :
  build_request env i it = inr (method, params) ->
  httpRequest env (request_options ep method params i) = inr response ->
  JS.get response "error" = inr error ->
  JS.truthy error = false ->
  JS.get response "result" = inr result ->
  result = JS.JUndefined \/ result = JS.JNull \/ result = JS.JStr "" ->
  process_item env credentials ep i it log
  = ((log ++ [request_options ep method params i])%list,
     inr {| json := [("result", result); ("method", JS.JStr method);
                     ("network", network credentials)];
            pairedItem := i |}).
Proof.
  intros Hb Hh He Ht Hr Hres.
  assert (F : JS.truthy result = false).
  { destruct Hres as [-> | [-> | ->]]; reflexivity. }
  unfold_M. rewrite Hb. simpl. rewrite Hh. simpl. rewrite He. simpl.
  rewrite Ht, Hr. simpl. rewrite (shape_falsy env _ _ _ _ F). reflexivity.
Qed.

Lemma falsy_result_adds_no_derived_field_witness :
  process_item
    (Sample.env_answering (inr (Sample.ok_response JS.JNull)))
    Sample.credentials Sample.endpoint 4 (Sample.getBalance_item Sample.addr) []
  = ([request_options Sample.endpoint "eth_getBalance"
        [JS.JStr Sample.addr; JS.JStr "latest"] 4],
     inr {| json := [("result", JS.JNull); ("method", JS.JStr "eth_getBalance");
                     ("network", JS.JStr "ethereum-mainnet")];
            pairedItem := 4 |}).
Proof.
  apply (falsy_result_adds_no_derived_field
           (Sample.env_answering (inr (Sample.ok_response JS.JNull)))
           Sample.credentials Sample.endpoint 4 (Sample.getBalance_item Sample.addr) []
           "eth_getBalance" [JS.JStr Sample.addr; JS.JStr "latest"]
           (Sample.ok_response JS.JNull) JS.JUndefined JS.JNull);
    try reflexivity.
  right. left. reflexivity.
Defined.

(** C10.  With a missing or empty [rpcEndpoint] in the credentials,
    [execute] throws the configuration error before the loop: no request
    is made and nothing is returned, whatever the items and whether or
    not the host asked to continue on failure. *)
Theorem missing_endpoint_fails_batch
        (env : Env) (continueOnFail : bool) (credentials : Credentials)
        (items : list Item) (log : list RequestOptions) :
  rpcEndpoint credentials = None \/ rpcEndpoint credentials = Some "" ->
  execute env continueOnFail credentials items log
  = (log, inl (NodeOperationError "RPC endpoint is required in credentials" None)).
Proof.
  intros [H | H]; unfold execute; rewrite H; reflexivity.
Qed.

Lemma missing_endpoint_fails_batch_witness :
  execute (Sample.env_answering (inr (Sample.ok_response (JS.JStr "0x10")))) true
          {| rpcEndpoint := Some ""; network := JS.JStr "ethereum-mainnet" |}
          [Sample.getBalance_item Sample.addr; Sample.getBalance_item "0x12"] []
  = ([], inl (NodeOperationError "RPC endpoint is required in credentials" None)).
Proof.
  apply missing_endpoint_fails_batch. right. reflexivity.
Defined.

(** C2.  In failure-tolerant mode a batch of [n] items with a usable
    endpoint returns one list of exactly [n] records; the record at
    position [k] is determined by item [k] and its index alone: the
    [{error: message}] record of the error the item threw (at validation,
    in the call or as an RPC error), or else its success record; each
    record is paired with its item. *)
Theorem tolerant_batch_is_index_stable
        (env : Env) (credentials : Credentials) (ep : string)
        (items : list Item) (log : list RequestOptions) :
  rpcEndpoint credentials = Some ep -> ep <> "" ->
  exists out,
    execute env true credentials items log
    = ((log ++ requests_from env credentials ep 0 items)%list, inr [out])
    /\ List.length out = List.length items
    /\ forall k it,
        nth_error items k = Some it ->
        exists d,
          nth_error out k = Some d
          /\ pairedItem d = k
          /\ match item_outcome env credentials ep k it with
             | inl e =>
                 d = {| json := [("error", error_message env e)]; pairedItem := k |}
                 /\ is_error_record d = true
             | inr d' => d = d' /\ is_error_record d = false
             end.
Proof.
  intros Hep Hne.
  exists (records_from env credentials ep 0 items).
  split; [| split].
  - unfold execute. rewrite Hep. destruct ep as [|c r]; [congruence |].
    unfold bind. rewrite run_items_tolerant. reflexivity.
  - apply records_from_length.
  - intros k it Hk.
    exists (item_record env credentials ep k it).
    split; [exact (records_from_nth env credentials ep items 0 k it Hk) |].
    unfold item_record.
    destruct (item_outcome env credentials ep k it) as [e | d] eqn:Eo.
    + split; [reflexivity |]. split; reflexivity.
    + destruct (item_outcome_ok env credentials ep k it d Eo) as [Hp Hr].
      split; [assumption |]. split; [reflexivity | assumption].
Qed.

(** The batch of the specification: three items, the second with a
    malformed address. *)
Lemma tolerant_batch_is_index_stable_witness :
  exists out,
    execute (Sample.env_answering (inr (Sample.ok_response (JS.JStr "0x10")))) true
            Sample.credentials
            [Sample.getBalance_item Sample.addr; Sample.getBalance_item "0x12";
             Sample.getBlock_item "latest" false] []
    = (([] ++ requests_from (Sample.env_answering (inr (Sample.ok_response (JS.JStr "0x10"))))
                Sample.credentials Sample.endpoint 0
                [Sample.getBalance_item Sample.addr; Sample.getBalance_item "0x12";
                 Sample.getBlock_item "latest" false])%list, inr [out])
    /\ List.length out = 3
    /\ option_map is_error_record (nth_error out 0) = Some false
    /\ option_map is_error_record (nth_error out 1) = Some true
    /\ option_map is_error_record (nth_error out 2) = Some false.
Proof.
  destruct (tolerant_batch_is_index_stable
              (Sample.env_answering (inr (Sample.ok_response (JS.JStr "0x10"))))
              Sample.credentials Sample.endpoint
              [Sample.getBalance_item Sample.addr; Sample.getBalance_item "0x12";
               Sample.getBlock_item "latest" false] [] eq_refl)
    as (out & Ex & Hlen & Hnth).
  - discriminate.
  - exists out. split; [exact Ex |]. split; [exact Hlen |].
    destruct (Hnth 0 _ eq_refl) as (d0 & E0 & _ & H0).
    destruct (Hnth 1 _ eq_refl) as (d1 & E1 & _ & H1).
    destruct (Hnth 2 _ eq_refl) as (d2 & E2 & _ & H2).
    rewrite E0, E1, E2. simpl.
    destruct H0 as [_ ->]. destruct H1 as [_ ->]. destruct H2 as [_ ->].
    repeat split.
Defined.

(** C7.  In strict mode, if the items before [it] all go through and
    [it] throws [e], [execute] throws [e]: no list of records is
    returned, and the outcome and the requests made are those of the
    batch cut after [it], every request bearing the id of [it] or of an
    earlier item; nothing of the items after [it] is looked at. *)
Theorem strict_batch_aborts_at_first_error
        (env : Env) (credentials : Credentials) (ep : string)
        (pre : list Item) (it : Item) (post : list Item) (e : NodeError)
        (log : list RequestOptions) :
  rpcEndpoint credentials = Some ep -> ep <> "" ->
  all_succeed env credentials ep 0 pre = true ->
  item_outcome env credentials ep (List.length pre) it = inl e ->
  execute env false credentials (pre ++ it :: post) log
  = ((log ++ requests_from env credentials ep 0 (pre ++ [it]))%list, inl e)
  /\ forall r, In r (requests_from env credentials ep 0 (pre ++ [it])) ->
               id (body r) <= List.length pre + 1.
Proof.
  intros Hep Hne Hpre Hit. split.
  - unfold execute. rewrite Hep. destruct ep as [|c r]; [congruence |].
    unfold bind. rewrite (run_items_strict env credentials _ pre it post e); auto.
  - intros r Hr. apply requests_from_id in Hr.
    rewrite length_app in Hr. simpl in Hr. lia.
Qed.

Lemma strict_batch_aborts_at_first_error_witness :
  execute (Sample.env_answering (inr (Sample.ok_response (JS.JStr "0x10")))) false
          Sample.credentials
          ([Sample.getBalance_item Sample.addr]
             ++ Sample.getBalance_item "0x12" :: [Sample.getBlock_item "latest" false]) []
  = ([request_options Sample.endpoint "eth_getBalance"
        [JS.JStr Sample.addr; JS.JStr "latest"] 0],
     inl (NodeOperationError
            "Invalid Ethereum address: 0x12. Must be 42 characters starting with 0x"
            (Some 1))).
Proof.
  refine (proj1 (strict_batch_aborts_at_first_error
                   (Sample.env_answering (inr (Sample.ok_response (JS.JStr "0x10"))))
                   Sample.credentials Sample.endpoint
                   [Sample.getBalance_item Sample.addr] (Sample.getBalance_item "0x12")
                   [Sample.getBlock_item "latest" false] _ [] eq_refl _ eq_refl eq_refl)).
  discriminate.
Defined.

Lemma strip_prefix_spec (p s r : string) :
  JS.strip_prefix p s = Some r <-> s = p ++ r.
Proof.
  revert s. induction p as [|a p IH]; intros s; simpl.
  - split; [intros E; now injection E | intros ->; reflexivity].
  - destruct s as [|b s]; [split; discriminate |].
    destruct (Ascii.eqb_spec a b) as [-> | N].
    + rewrite IH. split; [intros ->; reflexivity | intros E; now injection E].
    + split; [discriminate | intros E; injection E as E1 _; congruence].
Qed.

Lemma matches_0x_hex_spec (n : nat) (s : string) :
  matches_0x_hex n s = true <-> hex_shape n s.
Proof.
  unfold matches_0x_hex, hex_shape. split.
  - destruct (JS.strip_prefix "0x" s) as [r|] eqn:E; [| discriminate].
    intros H. apply andb_true_iff in H. destruct H as [Hl Hh].
    apply Nat.eqb_eq in Hl. apply strip_prefix_spec in E.
    exists r. auto.
  - intros (h & -> & Hl & Hh). simpl. rewrite Hl, Nat.eqb_refl, Hh. reflexivity.
Qed.

(** C5.  For [getBlock] the request is always built: the method is
    [eth_getBlockByHash] exactly when the identifier is [0x] followed by
    64 hexadecimal digits, and then the identifier is passed as it is;
    otherwise the method is [eth_getBlockByNumber] and the identifier
    goes through [toBlockTag]; [fullTransactions] comes second. *)
Theorem getBlock_request (env : Env) (i : nat) (it : Item) :
  operation it = "getBlock" ->
  exists method params,
    build_request env i it = inr (method, params)
    /\ (hex_shape 64 (blockIdentifier it) <-> method = "eth_getBlockByHash")
    /\ (hex_shape 64 (blockIdentifier it) ->
        params = [JS.JStr (blockIdentifier it); JS.JBool (fullTransactions it)])
    /\ (~ hex_shape 64 (blockIdentifier it) ->
        method = "eth_getBlockByNumber"
        /\ params = [JS.JStr (toBlockTag env (blockIdentifier it));
                     JS.JBool (fullTransactions it)]).
Proof.
  intros Hop. unfold build_request. rewrite Hop. simpl.
  destruct (matches_0x_hex 64 (blockIdentifier it)) eqn:E.
  - apply matches_0x_hex_spec in E.
    eexists _, _. split; [reflexivity |]. split; [tauto |]. split; [reflexivity | tauto].
  - assert (N : ~ hex_shape 64 (blockIdentifier it)).
    { intros H. apply matches_0x_hex_spec in H. congruence. }
    eexists _, _. split; [reflexivity |]. split; [| split].
    + split; [tauto | discriminate].
    + tauto.
    + intros _. split; reflexivity.
Qed.

Lemma getBlock_request_witness :
  build_request (Sample.env_answering (inl "unreachable")) 0
                (Sample.getBlock_item Sample.hash true)
  = inr ("eth_getBlockByHash", [JS.JStr Sample.hash; JS.JBool true])
  /\ build_request (Sample.env_answering (inl "unreachable")) 0
                   (Sample.getBlock_item "latest" false)
     = inr ("eth_getBlockByNumber", [JS.JStr "latest"; JS.JBool false]).
Proof.
  split.
  - destruct (getBlock_request (Sample.env_answering (inl "unreachable")) 0
                (Sample.getBlock_item Sample.hash true) eq_refl)
      as (m & ps & E & _). rewrite E. vm_compute in E. exact (eq_sym E).
  - destruct (getBlock_request (Sample.env_answering (inl "unreachable")) 0
                (Sample.getBlock_item "latest" false) eq_refl)
      as (m & ps & E & _). rewrite E. vm_compute in E. exact (eq_sym E).
Defined.

(** C8.  For [customRpc] the parameter text is parsed while the request
    is built.  A text that parses to an array gives the request with the
    caller's method name, unchecked, and the parsed array, and that is
    the request sent; a text that does not parse, or parses to something
    else, makes the item throw an error whose message carries the
    parser's message or [Parameters must be a JSON array], and no
    request is made. *)
Theorem customRpc_request
        (env : Env) (credentials : Credentials) (ep : string) (i : nat) (it : Item)
        (log : list RequestOptions) :
  operation it = "customRpc" ->
  match JSON_parse env (getNodeParameter (rpcParams it) "[]") with
  | inr (JS.JArr params) =>
      build_request env i it = inr (rpcMethod it, params)
      /\ fst (process_item env credentials ep i it log)
         = (log ++ [request_options ep (rpcMethod it) params i])%list
  | inr _ =>
      process_item env credentials ep i it log
      = (log, inl (NodeOperationError
                     "Invalid JSON parameters: Parameters must be a JSON array"
                     (Some i)))
  | inl parseError =>
      process_item env credentials ep i it log
      = (log, inl (NodeOperationError
                     ("Invalid JSON parameters: " ++ parseError) (Some i)))
  end.
Proof.
  intros Hop.
  assert (Hb : build_request env i it
               = match JSON_parse env (getNodeParameter (rpcParams it) "[]") with
                 | inr (JS.JArr params) => inr (rpcMethod it, params)
                 | inr _ =>
                     inl (NodeOperationError
                            "Invalid JSON parameters: Parameters must be a JSON array"
                            (Some i))
                 | inl parseError =>
                     inl (NodeOperationError
                            ("Invalid JSON parameters: " ++ parseError) (Some i))
                 end).
  { unfold build_request. rewrite Hop. simpl.
    destruct (JSON_parse env (getNodeParameter (rpcParams it) "[]")) as [m | v];
      [reflexivity |]. destruct v; reflexivity. }
  rewrite process_item_log.
  destruct (JSON_parse env (getNodeParameter (rpcParams it) "[]")) as [m | v].
  - destruct (item_requests_failed env credentials ep i it _ Hb) as [-> ->].
    now rewrite app_nil_r.
  - destruct v;
      try (destruct (item_requests_failed env credentials ep i it _ Hb) as [-> ->];
           now rewrite app_nil_r).
    split; [exact Hb |]. simpl.
    now rewrite (item_requests_built env credentials ep i it _ _ Hb).
Qed.

(** The specification's example: [eth_getLogs] with the parameter text
    [[{"fromBlock":"latest"}]]. *)
Lemma customRpc_request_witness :
  build_request (Sample.env_answering (inr (Sample.ok_response (JS.JArr [])))) 0
                (Sample.customRpc_item "eth_getLogs" (Some Sample.getLogs_params))
  = inr ("eth_getLogs", [JS.JObj [("fromBlock", JS.JStr "latest")]])
  /\ fst (process_item (Sample.env_answering (inr (Sample.ok_response (JS.JArr []))))
                       Sample.credentials Sample.endpoint 0
                       (Sample.customRpc_item "eth_getLogs" (Some Sample.getLogs_params)) [])
     = ([] ++ [request_options Sample.endpoint "eth_getLogs"
                 [JS.JObj [("fromBlock", JS.JStr "latest")]] 0])%list.
Proof.
  exact (customRpc_request (Sample.env_answering (inr (Sample.ok_response (JS.JArr []))))
           Sample.credentials Sample.endpoint 0
           (Sample.customRpc_item "eth_getLogs" (Some Sample.getLogs_params)) [] eq_refl).
Defined.

Lemma includes_spec (l : list string) (s : string) :
  includes l s = true <-> In s l.
Proof.
  unfold includes. rewrite existsb_exists. split.
  - intros (x & Hx & E). apply String.eqb_eq in E. now subst.
  - intros H. exists s. split; [assumption | apply String.eqb_refl].
Qed.

Lemma symbolic_not_digits (s : string) :
  In s symbolic_tags -> all_digits s = false.
Proof.
  unfold symbolic_tags. simpl.
  intros [<- | [<- | [<- | [<- | [<- | []]]]]]; reflexivity.
Qed.

(** The hexadecimal text written for a run of decimal digits whose value
    is below [2^53] is the canonical numeral of that value. *)
Lemma decimal_to_hex_exact (engine_digits : JS.number -> string) (s : string) :
  all_digits s = true -> (decimal_value s < 2 ^ 53)%Z ->
  JS.Number_toString16 engine_digits (JS.parseInt s 10)
  = JS.to_radix 16 (decimal_value s)
  /\ numeral_of 16 is_lower_hex (decimal_value s) (JS.to_radix 16 (decimal_value s)).
Proof.
  intros Hd Hlt. pose proof (decimal_value_nonneg s) as H0. split.
  - rewrite (parseInt_digits s Hd). apply Number_toString16_exact. lia.
  - now apply to_radix_hex.
Qed.

(** C3 (as amended).  [toBlockTag] is a total function.  It returns each
    of the five symbolic tags unchanged.  On a run of decimal digits
    whose value is below [2^53] it returns [0x] followed by the lowercase
    hexadecimal numeral of the value, with no leading zero.  Every text
    that is neither a symbolic tag nor a run of decimal digits is
    returned unchanged.  (Nothing is said of runs of digits of value
    [2^53] or more.) *)
Theorem toBlockTag_spec (env : Env) (s : string) :
  (In s symbolic_tags -> toBlockTag env s = s)
  /\ (all_digits s = true -> (decimal_value s < 2 ^ 53)%Z ->
      toBlockTag env s = "0x" ++ JS.to_radix 16 (decimal_value s)
      /\ numeral_of 16 is_lower_hex (decimal_value s)
                    (JS.to_radix 16 (decimal_value s)))
  /\ (~ In s symbolic_tags -> all_digits s = false -> toBlockTag env s = s).
Proof.
  unfold toBlockTag. split; [| split].
  - intros H. apply includes_spec in H. now rewrite H.
  - intros Hd Hlt.
    assert (Hi : includes symbolic_tags s = false).
    { destruct (includes symbolic_tags s) eqn:E; [| reflexivity].
      apply includes_spec in E. apply symbolic_not_digits in E. congruence. }
    rewrite Hi, Hd.
    destruct (decimal_to_hex_exact (Number_toString_radix16 env) s Hd Hlt) as [E N].
    rewrite E. now split.
  - intros Hn Hd.
    destruct (includes symbolic_tags s) eqn:E.
    + reflexivity.
    + now rewrite Hd.
Qed.

Lemma toBlockTag_spec_witness :
  toBlockTag (Sample.env_answering (inl "unused")) "latest" = "latest"
  /\ toBlockTag (Sample.env_answering (inl "unused")) "12" = "0xc"
  /\ toBlockTag (Sample.env_answering (inl "unused")) "0xabc" = "0xabc".
Proof.
  split; [| split].
  - apply (proj1 (toBlockTag_spec (Sample.env_answering (inl "unused")) "latest")).
    simpl. tauto.
  - exact (proj1 (proj1 (proj2 (toBlockTag_spec (Sample.env_answering (inl "unused")) "12"))
                        eq_refl eq_refl)).
  - apply (proj2 (proj2 (toBlockTag_spec (Sample.env_answering (inl "unused")) "0xabc")));
      [| reflexivity].
    simpl. intros [H | [H | [H | [H | [H | []]]]]]; discriminate H.
Defined.

(** C3 fails as stated: the digits [9007199254740993] denote [2^53 + 1],
    whose hexadecimal numeral is [20000000000001], but [parseInt] rounds
    them to [2^53] and [toBlockTag] answers [0x20000000000000], the tag
    of [9007199254740992]. *)
Lemma toBlockTag_rounds_large_numbers :
  all_digits "9007199254740993" = true
  /\ decimal_value "9007199254740993" = (2 ^ 53 + 1)%Z
  /\ JS.to_radix 16 (2 ^ 53 + 1) = "20000000000001"
  /\ toBlockTag (Sample.env_answering (inl "unused")) "9007199254740993"
     = "0x20000000000000"
  /\ toBlockTag (Sample.env_answering (inl "unused")) "9007199254740993"
     <> "0x" ++ JS.to_radix 16 (decimal_value "9007199254740993")
  /\ toBlockTag (Sample.env_answering (inl "unused")) "9007199254740993"
     = toBlockTag (Sample.env_answering (inl "unused")) "9007199254740992".
Proof.
  repeat split; try reflexivity.
  vm_compute. discriminate.
Qed.






(** Beyond [2^53] a decimal value is not sent exactly: the texts
    [1000000000000000001] and [1000000000000000000] denote different
    numbers and give the same request, whatever the engine. *)
Lemma estimateGas_value_is_rounded (env : Env) :
  decimal_value "1000000000000000001" <> decimal_value "1000000000000000000"
  /\ build_request env 0
       (Sample.estimateGas_item Sample.addr None None (Some "1000000000000000001"))
     = build_request env 0
         (Sample.estimateGas_item Sample.addr None None (Some "1000000000000000000")).
Proof. split; [vm_compute; discriminate | reflexivity]. Qed.

(** C6 (as amended).  For [getBalance], when the call goes through with
    a result [0x] followed by hexadecimal digits denoting [n], the record
    is [result], [method], [network], then [balanceWei], the exact decimal
    numeral of [n], then [balanceEth], which is [toFixed(18)] of the
    binary64 quotient of [n] converted to a Number by [1e18] (so digits
    beyond the precision of a binary64 value are not those of [n]). *)
Theorem getBalance_shaping
        (env : Env) (credentials : Credentials) (ep : string) (i : nat) (it : Item)
        (log : list RequestOptions) (method : string) (params : list JS.jsval)
        (response error : JS.jsval) (h : string) :
  operation it = "getBalance" ->
  build_request env i it = inr (method, params) ->
  httpRequest env (request_options ep method params i) = inr response ->
  JS.get response "error" = inr error ->
  JS.truthy error = false ->
  JS.get response "result" = inr (JS.JStr ("0x" ++ h)) ->
  h <> "" -> JS.forallb_str JS.is_hex h = true ->
  exists n,
    JS.read_all 16 h = Some n
    /\ numeral_of 10 JS.is_digit n (JS.to_radix 10 n)
    /\ process_item env credentials ep i it log
       = ((log ++ [request_options ep method params i])%list,
          inr {| json :=
                   [("result", JS.JStr ("0x" ++ h));
                    ("method", JS.JStr method);
                    ("network", network credentials);
                    ("balanceWei", JS.JStr (JS.to_radix 10 n));
                    ("balanceEth",
                     JS.JStr (JS.Number_toFixed (Number_toString env)
                                (JS.Number_div (JS.Number_of_Z n false) JS.lit_1e18)
                                18))];
                 pairedItem := i |}).
Proof.
  intros Hop Hb Hh He Ht Hr Hne Hhex.
  destruct (StringToBigInt_hex h Hne Hhex) as (n & Hn & Hpos & Hbig).
  exists n. split; [assumption |]. split; [now apply to_radix_decimal |].
  unfold_M. rewrite Hb. simpl. rewrite Hh. simpl. rewrite He. simpl.
  rewrite Ht, Hr. cbn [ret].
  assert (Hs : shape env (operation it) method (network credentials) (JS.JStr ("0x" ++ h))
               = inr [("result", JS.JStr ("0x" ++ h));
                      ("method", JS.JStr method);
                      ("network", network credentials);
                      ("balanceWei", JS.JStr (JS.to_radix 10 n));
                      ("balanceEth",
                       JS.JStr (JS.Number_toFixed (Number_toString env)
                                  (JS.Number_div (JS.Number_of_Z n false) JS.lit_1e18)
                                  18))]).
  { change ("0x" ++ h) with (String "0" (String "x" h)) in *.
    unfold shape. rewrite Hop.
    change ("getBalance" =? "getBalance") with true.
    change ("getBalance" =? "getBlockNumber") with false.
    change ("getBalance" =? "getGasPrice") with false.
    change ("getBalance" =? "getTransactionCount") with false.
    change ("getBalance" =? "estimateGas") with false.
    cbn [andb JS.truthy JS.is_empty negb].
    unfold add_scaled. cbn [JS.BigInt]. rewrite Hbig.
    unfold JS.BigInt_toString.
    destruct (Z.ltb_spec n 0); [lia |]. reflexivity. }
  rewrite Hs. reflexivity.
Qed.

(** The specification's example: [0xde0b6b3a7640000]. *)
Lemma getBalance_shaping_witness :
  exists n,
    JS.read_all 16 "de0b6b3a7640000" = Some n
    /\ numeral_of 10 JS.is_digit n (JS.to_radix 10 n)
    /\ process_item (Sample.env_answering
                       (inr (Sample.ok_response (JS.JStr "0xde0b6b3a7640000"))))
                    Sample.credentials Sample.endpoint 0
                    (Sample.getBalance_item Sample.addr) []
       = (([] ++ [request_options Sample.endpoint "eth_getBalance"
                    [JS.JStr Sample.addr; JS.JStr "latest"] 0])%list,
          inr {| json :=
                   [("result", JS.JStr "0xde0b6b3a7640000");
                    ("method", JS.JStr "eth_getBalance");
                    ("network", JS.JStr "ethereum-mainnet");
                    ("balanceWei", JS.JStr "1000000000000000000");
                    ("balanceEth", JS.JStr "1.000000000000000000")];
                 pairedItem := 0 |}).
Proof.
  destruct (getBalance_shaping
              (Sample.env_answering (inr (Sample.ok_response (JS.JStr "0xde0b6b3a7640000"))))
              Sample.credentials Sample.endpoint 0 (Sample.getBalance_item Sample.addr) []
              "eth_getBalance" [JS.JStr Sample.addr; JS.JStr "latest"]
              (Sample.ok_response (JS.JStr "0xde0b6b3a7640000")) JS.JUndefined
              "de0b6b3a7640000" eq_refl eq_refl eq_refl eq_refl eq_refl eq_refl)
    as (n & Hn & Hnum & Hp); [discriminate | reflexivity |].
  exists n. split; [exact Hn |]. split; [exact Hnum |].
  rewrite Hp. injection Hn as <-. reflexivity.
Defined.

(** C6 fails as stated: for the result [0xde0b6b3a7640001], which
    denotes [10^18 + 1], [balanceEth] is [1.000000000000000000], while
    [10^18 + 1] divided by [10^18] has the 18 fractional digits
    [1.000000000000000001]. *)
Lemma getBalance_balanceEth_is_rounded :
  JS.read_all 16 "de0b6b3a7640001" = Some (10 ^ 18 + 1)%Z
  /\ exact_scaled (10 ^ 18 + 1) 18 = "1.000000000000000001"
  /\ process_item (Sample.env_answering
                     (inr (Sample.ok_response (JS.JStr "0xde0b6b3a7640001"))))
                  Sample.credentials Sample.endpoint 0
                  (Sample.getBalance_item Sample.addr) []
     = ([request_options Sample.endpoint "eth_getBalance"
           [JS.JStr Sample.addr; JS.JStr "latest"] 0],
        inr {| json :=
                 [("result", JS.JStr "0xde0b6b3a7640001");
                  ("method", JS.JStr "eth_getBalance");
                  ("network", JS.JStr "ethereum-mainnet");
                  ("balanceWei", JS.JStr "1000000000000000001");
                  ("balanceEth", JS.JStr "1.000000000000000000")];
               pairedItem := 0 |}).
Proof. repeat split; reflexivity. Qed.


(* ================================================================== *)
(** * Part 7: further properties                                       *)
(* ================================================================== *)

(** ** The validators *)

Lemma hex_shape_length (n : nat) (s : string) :
  hex_shape n s -> String.length s = 2 + n.
Proof. intros (h & -> & Hl & _). simpl. now rewrite Hl. Qed.

(** X1.  [isValidAddress] accepts exactly the texts made of [0x] and 40
    hexadecimal digits; an accepted text has 42 characters, as the error
    message says. *)
Theorem isValidAddress_spec (a : string) :
  (isValidAddress a = true <-> hex_shape 40 a)
  /\ (isValidAddress a = true -> String.length a = 42).
Proof.
  split; [apply matches_0x_hex_spec |].
  intros H. apply matches_0x_hex_spec in H. exact (hex_shape_length 40 a H).
Qed.

Lemma isValidAddress_spec_witness :
  String.length Sample.addr = 42.
Proof. apply (proj2 (isValidAddress_spec Sample.addr)). reflexivity. Defined.

(** X2.  [isValidTxHash] accepts exactly the texts made of [0x] and 64
    hexadecimal digits, which have 66 characters; no text is both a valid
    address and a valid hash. *)
Theorem isValidTxHash_spec (h : string) :
  (isValidTxHash h = true <-> hex_shape 64 h)
  /\ (isValidTxHash h = true -> String.length h = 66)
  /\ (isValidTxHash h = true -> isValidAddress h = false).
Proof.
  split; [apply matches_0x_hex_spec |]. split.
  - intros H. apply matches_0x_hex_spec in H. exact (hex_shape_length 64 h H).
  - intros H. destruct (isValidAddress h) eqn:E; [| reflexivity].
    apply matches_0x_hex_spec, hex_shape_length in H.
    apply matches_0x_hex_spec, hex_shape_length in E. simpl in *. lia.
Qed.

Lemma isValidTxHash_spec_witness :
  String.length Sample.hash = 66 /\ isValidAddress Sample.hash = false.
Proof.
  split.
  - apply (proj1 (proj2 (isValidTxHash_spec Sample.hash))). reflexivity.
  - apply (proj2 (proj2 (isValidTxHash_spec Sample.hash))). reflexivity.
Defined.

(** ** The block tag *)

Lemma toBlockTag_0x (env : Env) (r : string) :
  toBlockTag env ("0x" ++ r) = "0x" ++ r.
Proof.
  unfold toBlockTag.
  assert (Hi : includes symbolic_tags ("0x" ++ r) = false) by reflexivity.
  assert (Hd : all_digits ("0x" ++ r) = false) by reflexivity.
  now rewrite Hi, Hd.
Qed.

Lemma toBlockTag_digits (env : Env) (s : string) :
  all_digits s = true ->
  toBlockTag env s
  = "0x" ++ JS.Number_toString16 (Number_toString_radix16 env)
                                 (JS.Number_of_Z (decimal_value s) false).
Proof.
  intros Hd. unfold toBlockTag.
  assert (Hi : includes symbolic_tags s = false).
  { destruct (includes symbolic_tags s) eqn:E; [| reflexivity].
    apply includes_spec in E. apply symbolic_not_digits in E. congruence. }
  now rewrite Hi, Hd, (parseInt_digits s Hd).
Qed.

(** X3.  [toBlockTag] is idempotent: a normalised tag is left as it is.
    In particular every text that starts with [0x] is returned
    unchanged. *)
Theorem toBlockTag_idempotent (env : Env) (s : string) :
  toBlockTag env (toBlockTag env s) = toBlockTag env s
  /\ toBlockTag env ("0x" ++ s) = "0x" ++ s.
Proof.
  split; [| apply toBlockTag_0x].
  assert (C : toBlockTag env s = s \/ exists r, toBlockTag env s = "0x" ++ r).
  { unfold toBlockTag. destruct (includes symbolic_tags s); [now left |].
    destruct (all_digits s); [right; eexists; reflexivity | now left]. }
  destruct C as [E | (r & E)]; rewrite E; [exact E | apply toBlockTag_0x].
Qed.

(** X4.  On runs of decimal digits [toBlockTag] depends on the value
    only: leading zeros do not change the tag. *)
Theorem toBlockTag_value_only (env : Env) (s t : string) :
  all_digits s = true -> all_digits t = true ->
  decimal_value s = decimal_value t ->
  toBlockTag env s = toBlockTag env t.
Proof.
  intros Hs Ht E.
  rewrite (toBlockTag_digits env s Hs), (toBlockTag_digits env t Ht), E. reflexivity.
Qed.

Lemma toBlockTag_value_only_witness :
  toBlockTag (Sample.env_answering (inl "unused")) "0012"
  = toBlockTag (Sample.env_answering (inl "unused")) "12".
Proof. apply toBlockTag_value_only; reflexivity. Defined.

Lemma is_lower_hex_is_hex (c : ascii) : is_lower_hex c = true -> JS.is_hex c = true.
Proof.
  unfold is_lower_hex, JS.is_hex. intros H. apply orb_true_iff in H.
  destruct H as [H | H]; rewrite H; [now rewrite orb_true_r | reflexivity].
Qed.

Lemma read_all_nonempty (radix : Z) (s : string) (n : Z) :
  JS.read_all radix s = Some n -> s <> "".
Proof. intros H ->. discriminate H. Qed.

(** Reading back a hexadecimal literal. *)
Lemma parseInt_hex (h : string) (n : Z) :
  JS.forallb_str JS.is_hex h = true -> JS.read_all 16 h = Some n ->
  JS.parseInt ("0x" ++ h) 16 = JS.Number_of_Z n false.
Proof.
  intros Hh Hn. unfold JS.parseInt.
  change ("0x" ++ h) with (String "0" (String "x" h)).
  rewrite (trim_start_plain "0" (String "x" h) eq_refl).
  change (Ascii.eqb "0" "-") with false. change (Ascii.eqb "0" "+") with false.
  change (16 =? 16)%Z with true. cbv iota.
  change (JS.strip_prefix "0x" (String "0" (String "x" h))) with (Some h).
  destruct (read_digits_all 16 JS.is_hex h is_hex_digit_in Hh 0%Z 0%nat) as (v & Ev).
  unfold JS.read_all in Hn. rewrite Ev in *.
  destruct h as [|c h]; [discriminate Hn |]. simpl in Hn. injection Hn as ->.
  reflexivity.
Qed.

Lemma integer_of_number_exact (n : Z) :
  (0 <= n < 2 ^ 53)%Z -> JS.integer_of_number (JS.Number_of_Z n false) = Some n.
Proof.
  intros Hn. destruct n as [| p | p]; [reflexivity | | lia].
  destruct (Number_of_Z_exact p) as (m & e & E & He & Hm); [lia |].
  rewrite E. unfold JS.integer_of_number.
  destruct (Z.leb_spec 0 e) as [L | L].
  - assert (e = 0%Z) by lia. subst e. simpl in Hm. rewrite Z.shiftl_0_r.
    f_equal. lia.
  - assert (Hs : Z.shiftr (Zpos m) (- e) = Zpos p).
    { rewrite Hm, Z.shiftr_div_pow2 by lia. apply Z.div_mul.
      apply Z.pow_nonzero; lia. }
    assert (Hl : Z.land (Zpos m) (Z.ones (- e)) = 0%Z).
    { rewrite Z.land_ones by lia. rewrite Hm. apply Z.mod_mul.
      apply Z.pow_nonzero; lia. }
    rewrite Hs, Hl. reflexivity.
Qed.

(** X5.  Round trip: for a run of decimal digits of value below [2^53],
    reading the tag back with [parseInt(tag, 16)], as the response shaper
    reads hexadecimal results, gives the Number of that very value. *)
Theorem toBlockTag_parseInt_roundtrip (env : Env) (s : string) :
  all_digits s = true -> (decimal_value s < 2 ^ 53)%Z ->
  JS.parseInt (toBlockTag env s) 16 = JS.Number_of_Z (decimal_value s) false
  /\ JS.integer_of_number (JS.parseInt (toBlockTag env s) 16) = Some (decimal_value s).
Proof.
  intros Hd Hlt. pose proof (decimal_value_nonneg s) as H0.
  assert (E : JS.parseInt (toBlockTag env s) 16
              = JS.Number_of_Z (decimal_value s) false).
  { rewrite (toBlockTag_digits env s Hd), Number_toString16_exact by lia.
    destruct (to_radix_hex (decimal_value s) H0) as (Hl & Hr & _).
    apply parseInt_hex; [| assumption].
    exact (forallb_str_impl _ _ _ is_lower_hex_is_hex Hl). }
  split; [exact E |]. rewrite E. apply integer_of_number_exact. lia.
Qed.

Lemma toBlockTag_parseInt_roundtrip_witness :
  JS.integer_of_number
    (JS.parseInt (toBlockTag (Sample.env_answering (inl "unused")) "19000000") 16)
  = Some 19000000%Z.
Proof.
  exact (proj2 (toBlockTag_parseInt_roundtrip (Sample.env_answering (inl "unused"))
                  "19000000" eq_refl eq_refl)).
Defined.

(** ** The request builder *)

Ltac by_operation it :=
  unfold build_request; cbv zeta;
  repeat match goal with
         | |- context [operation it =? ?k] =>
             let E := fresh "Eop" in
             destruct (String.eqb_spec (operation it) k) as [E | E]
         end.

Lemma build_failure_makes_no_request
      (env : Env) (credentials : Credentials) (ep : string) (i : nat) (it : Item)
      (log : list RequestOptions) (e : NodeError) :
  build_request env i it = inl e ->
  process_item env credentials ep i it log = (log, inl e).
Proof.
  intros Hb. rewrite process_item_log.
  destruct (item_requests_failed env credentials ep i it e Hb) as [-> ->].
  now rewrite app_nil_r.
Qed.

(** X6.  For [getBalance], [getTransactionCount] and [getCode] the
    address decides: a valid one gives the operation's method with the
    address as it was typed and the block tag (by default [latest])
    normalised by [toBlockTag]; any other makes the item throw an error
    that quotes the address and carries the item index, and no request
    is made. *)
Theorem address_operations_request
        (env : Env) (credentials : Credentials) (ep : string) (i : nat) (it : Item)
        (log : list RequestOptions) (op method : string) :
  In (op, method) [("getBalance", "eth_getBalance");
                   ("getTransactionCount", "eth_getTransactionCount");
                   ("getCode", "eth_getCode")] ->
  operation it = op ->
  (isValidAddress (address it) = true ->
   build_request env i it
   = inr (method, [JS.JStr (address it);
                   JS.JStr (toBlockTag env (getNodeParameter (block it) "latest"))]))
  /\ (isValidAddress (address it) = false ->
      process_item env credentials ep i it log
      = (log, inl (NodeOperationError
                     ("Invalid Ethereum address: " ++ address it
                        ++ ". Must be 42 characters starting with 0x")
                     (Some i)))).
Proof.
  intros Hin Hop.
  assert (Hb : build_request env i it
               = if isValidAddress (address it)
                 then inr (method, [JS.JStr (address it);
                                    JS.JStr (toBlockTag env (getNodeParameter (block it) "latest"))])
                 else inl (invalid_address "Invalid Ethereum address: " (address it) i)).
  { simpl in Hin.
    destruct Hin as [E | [E | [E | []]]]; injection E as <- <-;
      unfold build_request; rewrite Hop; simpl;
      destruct (isValidAddress (address it)); reflexivity. }
  split; intros Hv; rewrite Hv in Hb; [exact Hb |].
  exact (build_failure_makes_no_request env credentials ep i it log _ Hb).
Qed.

(** The specification's example: block [100] becomes [0x64]. *)
Lemma address_operations_request_witness :
  build_request (Sample.env_answering (inl "unreachable")) 0
    {| operation := "getBalance"; address := Sample.addr; block := Some "100";
       blockIdentifier := "latest"; fullTransactions := false; txHash := "";
       to := ""; from := None; data := None; value := None;
       rpcMethod := ""; rpcParams := None |}
  = inr ("eth_getBalance", [JS.JStr Sample.addr; JS.JStr "0x64"]).
Proof.
  exact (proj1 (address_operations_request
                  (Sample.env_answering (inl "unreachable")) Sample.credentials
                  Sample.endpoint 0
                  {| operation := "getBalance"; address := Sample.addr; block := Some "100";
                     blockIdentifier := "latest"; fullTransactions := false; txHash := "";
                     to := ""; from := None; data := None; value := None;
                     rpcMethod := ""; rpcParams := None |}
                  [] "getBalance" "eth_getBalance" (or_introl eq_refl) eq_refl)
               eq_refl).
Defined.

(** X7.  For [getTransaction] and [getTransactionReceipt] the hash
    decides: a valid one gives the operation's method with the hash as
    its only parameter; any other makes the item throw an error that
    quotes the hash and carries the item index, and no request is made. *)
Theorem hash_operations_request
        (env : Env) (credentials : Credentials) (ep : string) (i : nat) (it : Item)
        (log : list RequestOptions) (op method : string) :
  In (op, method) [("getTransaction", "eth_getTransactionByHash");
                   ("getTransactionReceipt", "eth_getTransactionReceipt")] ->
  operation it = op ->
  (isValidTxHash (txHash it) = true ->
   build_request env i it = inr (method, [JS.JStr (txHash it)]))
  /\ (isValidTxHash (txHash it) = false ->
      process_item env credentials ep i it log
      = (log, inl (NodeOperationError
                     ("Invalid transaction hash: " ++ txHash it
                        ++ ". Must be 66 characters starting with 0x")
                     (Some i)))).
Proof.
  intros Hin Hop.
  assert (Hb : build_request env i it
               = if isValidTxHash (txHash it)
                 then inr (method, [JS.JStr (txHash it)])
                 else inl (invalid_hash (txHash it) i)).
  { simpl in Hin.
    destruct Hin as [E | [E | []]]; injection E as <- <-;
      unfold build_request; rewrite Hop; simpl;
      destruct (isValidTxHash (txHash it)); reflexivity. }
  split; intros Hv; rewrite Hv in Hb; [exact Hb |].
  exact (build_failure_makes_no_request env credentials ep i it log _ Hb).
Qed.

Lemma hash_operations_request_witness :
  process_item (Sample.env_answering (inr (Sample.ok_response JS.JNull)))
    Sample.credentials Sample.endpoint 3
    {| operation := "getTransactionReceipt"; address := ""; block := None;
       blockIdentifier := "latest"; fullTransactions := false; txHash := Sample.addr;
       to := ""; from := None; data := None; value := None;
       rpcMethod := ""; rpcParams := None |} []
  = ([], inl (NodeOperationError
                ("Invalid transaction hash: " ++ Sample.addr
                   ++ ". Must be 66 characters starting with 0x")
                (Some 3))).
Proof.
  exact (proj2 (hash_operations_request
                  (Sample.env_answering (inr (Sample.ok_response JS.JNull)))
                  Sample.credentials Sample.endpoint 3
                  {| operation := "getTransactionReceipt"; address := ""; block := None;
                     blockIdentifier := "latest"; fullTransactions := false;
                     txHash := Sample.addr;
                     to := ""; from := None; data := None; value := None;
                     rpcMethod := ""; rpcParams := None |}
                  [] "getTransactionReceipt" "eth_getTransactionReceipt"
                  (or_intror (or_introl eq_refl)) eq_refl)
               eq_refl).
Defined.

(** X8.  For [call] with a valid [to] and a [from] that is empty or
    valid, the request is [eth_call] with the parameters [txObject] and
    the normalised block tag; [txObject] holds [to], then [from] and
    [data] when they are not empty, and never a [value], whatever the
    item's value parameter. *)
Theorem call_request (env : Env) (i : nat) (it : Item) :
  operation it = "call" ->
  isValidAddress (to it) = true ->
  getNodeParameter (from it) "" = ""
  \/ isValidAddress (getNodeParameter (from it) "") = true ->
  let from_ := getNodeParameter (from it) "" in
  let data_ := getNodeParameter (data it) "" in
  let txObject :=
    ([("to", JS.JStr (to it))]
       ++ (if JS.is_empty from_ then [] else [("from", JS.JStr from_)])
       ++ (if JS.is_empty data_ then [] else [("data", JS.JStr data_)]))%list in
  build_request env i it
  = inr ("eth_call",
         [JS.JObj txObject;
          JS.JStr (toBlockTag env (getNodeParameter (block it) "latest"))])
  /\ JS.lookup "value" txObject = None.
Proof.
  intros Hop Hto Hfrom from_ data_ txObject. subst txObject. split.
  - unfold build_request. rewrite Hop. simpl. rewrite Hto. simpl.
    fold from_ data_.
    assert (G : negb (JS.is_empty from_) && negb (isValidAddress from_) = false).
    { destruct Hfrom as [E | E]; fold from_ in E; rewrite E;
        [reflexivity | apply andb_false_r]. }
    rewrite G. unfold txObject_base.
    destruct (JS.is_empty from_); destruct (JS.is_empty data_); reflexivity.
  - destruct (JS.is_empty from_); destruct (JS.is_empty data_); reflexivity.
Qed.

Lemma call_request_witness :
  build_request (Sample.env_answering (inl "unreachable")) 0
    {| operation := "call"; address := ""; block := Some "7";
       blockIdentifier := "latest"; fullTransactions := false; txHash := "";
       to := Sample.addr; from := None; data := Some "0x18160ddd"; value := Some "5";
       rpcMethod := ""; rpcParams := None |}
  = inr ("eth_call",
         [JS.JObj [("to", JS.JStr Sample.addr); ("data", JS.JStr "0x18160ddd")];
          JS.JStr "0x7"]).
Proof.
  exact (proj1 (call_request (Sample.env_answering (inl "unreachable")) 0
                  {| operation := "call"; address := ""; block := Some "7";
                     blockIdentifier := "latest"; fullTransactions := false; txHash := "";
                     to := Sample.addr; from := None; data := Some "0x18160ddd";
                     value := Some "5"; rpcMethod := ""; rpcParams := None |}
                  eq_refl eq_refl (or_introl eq_refl))).
Defined.

(** X9.  The item throws [Unknown operation: <operation>] exactly when
    its operation is none of the eleven values the node description
    offers; every offered value is handled by the [switch]. *)
Theorem unknown_operation_iff (env : Env) (i : nat) (it : Item) :
  build_request env i it
  = inl (NodeOperationError ("Unknown operation: " ++ operation it) (Some i))
  <-> ~ In (operation it) operation_options.
Proof.
  split.
  - intros Hb Hin. revert Hb. simpl in Hin.
    by_operation it;
      try (exfalso; intuition congruence);
      repeat match goal with
             | |- context [if ?c then _ else _] => destruct c
             | |- context [match ?c with _ => _ end] => destruct c
             end;
      unfold invalid_address, invalid_hash; simpl; discriminate.
  - intros Hn. by_operation it;
      try (exfalso; apply Hn;
           match goal with E : operation it = _ |- _ => rewrite E end;
           simpl; tauto).
    reflexivity.
Qed.

(** X10.  Apart from [customRpc], an operation can only send one of the
    eleven method names written in the [switch]. *)
Theorem builtin_operations_use_fixed_methods
        (env : Env) (i : nat) (it : Item) (method : string) (params : list JS.jsval) :
  operation it <> "customRpc" ->
  build_request env i it = inr (method, params) ->
  In method fixed_methods.
Proof.
  intros Hc. by_operation it; try contradiction;
    repeat match goal with
           | |- context [if ?c then _ else _] => destruct c
           end;
    intros E; try discriminate E; injection E as <- _; simpl; tauto.
Qed.

Lemma builtin_operations_use_fixed_methods_witness :
  In "eth_getBlockByNumber" fixed_methods.
Proof.
  apply (builtin_operations_use_fixed_methods
           (Sample.env_answering (inl "unreachable")) 0
           (Sample.getBlock_item "latest" false) "eth_getBlockByNumber"
           [JS.JStr "latest"; JS.JBool false]).
  - discriminate.
  - reflexivity.
Defined.

(** ** Requests *)

Section Requests.

Variable env : Env.

Lemma item_requests_eq (credentials : Credentials) (ep : string) (i : nat) (it : Item) :
  item_requests env credentials ep i it
  = match build_request env i it with
    | inl _ => []
    | inr (m, ps) => [request_options ep m ps i]
    end.
Proof.
  destruct (build_request env i it) as [e | [m ps]] eqn:Hb.
  - now destruct (item_requests_failed env credentials ep i it e Hb).
  - exact (item_requests_built env credentials ep i it m ps Hb).
Qed.

Lemma requests_from_shape (credentials : Credentials) (ep : string) (items : list Item) :
  forall (i : nat) (r : RequestOptions),
    In r (requests_from env credentials ep i items) ->
    exists m ps j, r = request_options ep m ps j /\ i <= j < i + List.length items.
Proof.
  induction items as [|x rest IH]; intros i r Hr; simpl in Hr; [contradiction |].
  apply in_app_or in Hr. destruct Hr as [Hr | Hr].
  - rewrite item_requests_eq in Hr.
    destruct (build_request env i x) as [e | [m ps]]; [contradiction |].
    destruct Hr as [<- | []]. exists m, ps, i. simpl. split; [reflexivity | lia].
  - destruct (IH (S i) r Hr) as (m & ps & j & E & Hj).
    exists m, ps, j. simpl. split; [assumption | lia].
Qed.

Lemma increasing_from_weaken (lo lo' : nat) (ids : list nat) :
  lo' <= lo -> increasing_from lo ids -> increasing_from lo' ids.
Proof. destruct ids; simpl; [trivial |]. intros H [H1 H2]. split; [lia | assumption]. Qed.

Lemma requests_from_increasing (credentials : Credentials) (ep : string) (items : list Item) :
  forall i, increasing_from i (request_ids (requests_from env credentials ep i items)).
Proof.
  induction items as [|x rest IH]; intros i; simpl; [trivial |].
  rewrite item_requests_eq.
  destruct (build_request env i x) as [e | [m ps]]; simpl.
  - apply (increasing_from_weaken (S i)); [lia | apply IH].
  - split; [lia |]. replace (i + 1) with (S i) by lia. apply IH.
Qed.

Lemma run_items_log (continueOnFail : bool) (credentials : Credentials) (ep : string)
      (items : list Item) :
  forall (i : nat) (acc : list ExecutionData) (log : list RequestOptions),
  exists k,
    fst (run_items env continueOnFail credentials ep items i acc log)
    = (log ++ requests_from env credentials ep i (firstn k items))%list.
Proof.
  induction items as [|x rest IH]; intros i acc log.
  - exists 0. simpl. now rewrite app_nil_r.
  - cbn [run_items]. unfold bind, try_catch. rewrite process_item_log.
    destruct (item_outcome env credentials ep i x) as [e | d].
    + destruct continueOnFail; unfold ret, throw.
      * destruct (IH (S i) (acc ++ [error_record env i e])%list
                     (log ++ item_requests env credentials ep i x)%list) as (k & E).
        exists (S k). rewrite E. simpl. now rewrite app_assoc.
      * exists 1. simpl. now rewrite app_nil_r.
    + destruct (IH (S i) (acc ++ [d])%list
                   (log ++ item_requests env credentials ep i x)%list) as (k & E).
      exists (S k). rewrite E. simpl. now rewrite app_assoc.
Qed.

Lemma execute_log (continueOnFail : bool) (credentials : Credentials) (items : list Item) :
  fst (execute env continueOnFail credentials items []) = []
  \/ exists ep k,
      rpcEndpoint credentials = Some ep
      /\ fst (execute env continueOnFail credentials items [])
         = requests_from env credentials ep 0 (firstn k items).
Proof.
  unfold execute.
  destruct (rpcEndpoint credentials) as [[|c ep] |]; [now left | | now left].
  right. destruct (run_items_log continueOnFail credentials (String c ep) items 0 [] [])
    as (k & E).
  exists (String c ep), k. split; [reflexivity |].
  unfold bind.
  destruct (run_items env continueOnFail credentials (String c ep) items 0 [] [])
    as [l [e | a]]; exact E.
Qed.

End Requests.

(** X11.  Whatever the batch and the mode, every request handed to the
    HTTP helper is a POST to the credential's endpoint with the JSON
    content type, the [json] flag and the envelope version [2.0]; its id
    is the 1-based index of an item; and the ids of successive requests
    grow strictly, so no id is used twice in a batch. *)
Theorem requests_are_well_formed
        (env : Env) (continueOnFail : bool) (credentials : Credentials)
        (items : list Item) :
  (forall r,
      In r (fst (execute env continueOnFail credentials items [])) ->
      rpcEndpoint credentials = Some (url r)
      /\ http_method r = "POST"
      /\ headers r = [("Content-Type", "application/json")]
      /\ jsonrpc (body r) = "2.0"
      /\ opt_json r = true
      /\ 1 <= id (body r) <= List.length items)
  /\ increasing_from 0 (request_ids (fst (execute env continueOnFail credentials items []))).
Proof.
  destruct (execute_log env continueOnFail credentials items)
    as [E | (ep & k & Hep & E)]; rewrite E.
  - split; [intros r [] | exact I].
  - split.
    + intros r Hr.
      destruct (requests_from_shape env credentials ep _ 0 r Hr) as (m & ps & j & -> & Hj).
      rewrite length_firstn in Hj. simpl.
      repeat split; try assumption; lia.
    + apply requests_from_increasing.
Qed.

(** X12.  An item causes a request exactly when its request is built:
    then one request, with the built method and parameters and the id
    [i + 1]; an item that fails validation causes none. *)
Theorem one_request_per_built_item
        (env : Env) (credentials : Credentials) (ep : string) (i : nat) (it : Item)
        (log : list RequestOptions) :
  fst (process_item env credentials ep i it log)
  = (log ++ match build_request env i it with
            | inl _ => []
            | inr (m, ps) => [request_options ep m ps i]
            end)%list.
Proof.
  rewrite process_item_log. simpl. now rewrite item_requests_eq.
Qed.

(** X14.  When the HTTP helper rejects, the item throws that failure
    after its one request; in failure-tolerant mode its record is
    [{error: <the helper's message>}]. *)
Theorem transport_failure
        (env : Env) (credentials : Credentials) (ep : string) (i : nat) (it : Item)
        (log : list RequestOptions) (method : string) (params : list JS.jsval)
        (msg : string) :
  build_request env i it = inr (method, params) ->
  httpRequest env (request_options ep method params i) = inl msg ->
  process_item env credentials ep i it log
  = ((log ++ [request_options ep method params i])%list, inl (RequestError msg))
  /\ item_record env credentials ep i it
     = {| json := [("error", JS.JStr msg)]; pairedItem := i |}.
Proof.
  intros Hb Hh.
  assert (P : forall l, process_item env credentials ep i it l
                        = ((l ++ [request_options ep method params i])%list,
                           inl (RequestError msg))).
  { intros l. unfold_M. rewrite Hb. simpl. now rewrite Hh. }
  split; [apply P |].
  unfold item_record, item_outcome. now rewrite P.
Qed.

Lemma transport_failure_witness :
  process_item (Sample.env_answering (inl "connect ECONNREFUSED")) Sample.credentials
               Sample.endpoint 0 (Sample.getBlock_item "latest" false) []
  = (([] ++ [request_options Sample.endpoint "eth_getBlockByNumber"
               [JS.JStr "latest"; JS.JBool false] 0])%list,
     inl (RequestError "connect ECONNREFUSED"))
  /\ item_record (Sample.env_answering (inl "connect ECONNREFUSED")) Sample.credentials
                 Sample.endpoint 0 (Sample.getBlock_item "latest" false)
     = {| json := [("error", JS.JStr "connect ECONNREFUSED")]; pairedItem := 0 |}.
Proof.
  exact (transport_failure
           (Sample.env_answering (inl "connect ECONNREFUSED"))
           Sample.credentials Sample.endpoint 0
           (Sample.getBlock_item "latest" false) []
           "eth_getBlockByNumber" [JS.JStr "latest"; JS.JBool false]
           "connect ECONNREFUSED" eq_refl eq_refl).
Defined.

(** X15.  When the helper resolves with [null] or [undefined] instead of
    an envelope, reading [response.error] throws: the item fails with a
    [TypeError] after its request, and is not given a success record. *)
Theorem empty_response_body_fails
        (env : Env) (credentials : Credentials) (ep : string) (i : nat) (it : Item)
        (log : list RequestOptions) (method : string) (params : list JS.jsval)
        (response : JS.jsval) :
  build_request env i it = inr (method, params) ->
  httpRequest env (request_options ep method params i) = inr response ->
  response = JS.JNull \/ response = JS.JUndefined ->
  exists e,
    JS.js_name e = "TypeError"
    /\ process_item env credentials ep i it log
       = ((log ++ [request_options ep method params i])%list, inl (RuntimeError e)).
Proof.
  intros Hb Hh [-> | ->]; eexists; (split; [| unfold_M; rewrite Hb; simpl; rewrite Hh;
                                                simpl; reflexivity]); reflexivity.
Qed.

Lemma empty_response_body_fails_witness :
  exists e,
    JS.js_name e = "TypeError"
    /\ process_item (Sample.env_answering (inr JS.JNull)) Sample.credentials
                    Sample.endpoint 0 (Sample.getBlock_item "latest" false) []
       = (([] ++ [request_options Sample.endpoint "eth_getBlockByNumber"
                    [JS.JStr "latest"; JS.JBool false] 0])%list,
          inl (RuntimeError e)).
Proof.
  apply (empty_response_body_fails (Sample.env_answering (inr JS.JNull))
           Sample.credentials Sample.endpoint 0 (Sample.getBlock_item "latest" false) []
           "eth_getBlockByNumber" [JS.JStr "latest"; JS.JBool false] JS.JNull);
    [reflexivity | reflexivity | now left].
Defined.

(** ** The response shaper *)

Lemma shape_fails_iff (env : Env) (operation method : string)
      (network result : JS.jsval) (e : JS.JsError) :
  shape env operation method network result = inl e
  <-> (operation = "getBalance" \/ operation = "getGasPrice")
      /\ JS.truthy result = true
      /\ JS.BigInt (Number_toString env) result = inl e.
Proof.
  unfold shape, add_scaled.
  destruct (String.eqb_spec operation "getBalance") as [-> | N1].
  - simpl.
    destruct (JS.truthy result); simpl;
      [destruct (JS.BigInt (Number_toString env) result) as [e' | w]; simpl |];
      (split; [intros H; try discriminate H; injection H as <-; auto
              | intros (_ & H1 & H2); congruence]).
  - destruct (String.eqb_spec operation "getGasPrice") as [-> | N2].
    + simpl.
      destruct (JS.truthy result); simpl;
        [destruct (JS.BigInt (Number_toString env) result) as [e' | w]; simpl |];
        (split; [intros H; try discriminate H; injection H as <-; auto
                | intros (_ & H1 & H2); congruence]).
    + simpl. split; [discriminate | intros ([H | H] & _); contradiction].
Qed.



(** X17.  For [getGasPrice] and a result [0x] followed by hexadecimal
    digits denoting [n], the record is [result], [method], [network],
    then [gasPriceWei], the exact decimal numeral of [n], then
    [gasPriceGwei], which is [toFixed(9)] of the binary64 quotient of [n]
    by [1e9]. *)
Theorem getGasPrice_shaping
        (env : Env) (method : string) (network : JS.jsval) (h : string) :
  h <> "" -> JS.forallb_str JS.is_hex h = true ->
  exists n,
    JS.read_all 16 h = Some n
    /\ numeral_of 10 JS.is_digit n (JS.to_radix 10 n)
    /\ shape env "getGasPrice" method network (JS.JStr ("0x" ++ h))
       = inr [("result", JS.JStr ("0x" ++ h));
              ("method", JS.JStr method);
              ("network", network);
              ("gasPriceWei", JS.JStr (JS.to_radix 10 n));
              ("gasPriceGwei",
               JS.JStr (JS.Number_toFixed (Number_toString env)
                          (JS.Number_div (JS.Number_of_Z n false) JS.lit_1e9) 9))].
Proof.
  intros Hne Hhex.
  destruct (StringToBigInt_hex h Hne Hhex) as (n & Hn & Hpos & Hbig).
  exists n. split; [assumption |]. split; [now apply to_radix_decimal |].
  change ("0x" ++ h) with (String "0" (String "x" h)) in *.
  unfold shape. simpl. unfold add_scaled. cbn [JS.BigInt]. rewrite Hbig.
  unfold JS.BigInt_toString.
  destruct (Z.ltb_spec n 0); [lia |]. reflexivity.
Qed.

(** One gwei: [0x3b9aca00]. *)
Lemma getGasPrice_shaping_witness :
  shape (Sample.env_answering (inl "unused")) "getGasPrice" "eth_gasPrice"
        (JS.JStr "base") (JS.JStr "0x3b9aca00")
  = inr [("result", JS.JStr "0x3b9aca00");
         ("method", JS.JStr "eth_gasPrice");
         ("network", JS.JStr "base");
         ("gasPriceWei", JS.JStr "1000000000");
         ("gasPriceGwei", JS.JStr "1.000000000")].
Proof.
  destruct (getGasPrice_shaping (Sample.env_answering (inl "unused")) "eth_gasPrice"
              (JS.JStr "base") "3b9aca00") as (n & Hn & _ & Hs);
    [discriminate | reflexivity |].
  refine (eq_trans Hs _). injection Hn as <-. reflexivity.
Defined.

(** X18.  For [getBlockNumber], [getTransactionCount] and [estimateGas]
    and a result [0x] followed by hexadecimal digits denoting [n], the
    record is [result], [method], [network] and one more field, named
    after the operation, holding [n] as a Number: exactly [n] when
    [n < 2^53], the nearest binary64 value otherwise. *)
Theorem decimal_field_shaping
        (env : Env) (operation field method : string) (network : JS.jsval) (h : string) :
  In (operation, field) [("getBlockNumber", "blockNumberDecimal");
                         ("getTransactionCount", "transactionCountDecimal");
                         ("estimateGas", "gasEstimateDecimal")] ->
  h <> "" -> JS.forallb_str JS.is_hex h = true ->
  exists n,
    JS.read_all 16 h = Some n
    /\ shape env operation method network (JS.JStr ("0x" ++ h))
       = inr [("result", JS.JStr ("0x" ++ h));
              ("method", JS.JStr method);
              ("network", network);
              (field, JS.JNum (JS.Number_of_Z n false))]
    /\ ((n < 2 ^ 53)%Z -> JS.integer_of_number (JS.Number_of_Z n false) = Some n).
Proof.
  intros Hin Hne Hhex.
  destruct (StringToBigInt_hex h Hne Hhex) as (n & Hn & Hpos & _).
  exists n. split; [assumption |]. split.
  - pose proof (parseInt_hex h n Hhex Hn) as Hp.
    change ("0x" ++ h) with (String "0" (String "x" h)) in *.
    simpl in Hin.
    destruct Hin as [E | [E | [E | []]]]; injection E as <- <-;
      unfold shape; simpl; unfold add_decimal; cbn [JS.ToString];
      rewrite Hp; reflexivity.
  - intros Hlt. apply integer_of_number_exact. lia.
Qed.

Lemma decimal_field_shaping_witness :
  shape (Sample.env_answering (inl "unused")) "getBlockNumber" "eth_blockNumber"
        (JS.JStr "base") (JS.JStr "0x121eac0")
  = inr [("result", JS.JStr "0x121eac0");
         ("method", JS.JStr "eth_blockNumber");
         ("network", JS.JStr "base");
         ("blockNumberDecimal", JS.JNum (JS.Number_of_Z 19000000 false))].
Proof.
  destruct (decimal_field_shaping (Sample.env_answering (inl "unused"))
              "getBlockNumber" "blockNumberDecimal" "eth_blockNumber"
              (JS.JStr "base") "121eac0" (or_introl eq_refl))
    as (n & Hn & Hs & _); [discriminate | reflexivity |].
  refine (eq_trans Hs _). injection Hn as <-. reflexivity.
Defined.

(** X19.  For every other operation ([getBlock], [getTransaction],
    [getTransactionReceipt], [getCode], [call], [customRpc]) the record
    is [result], [method] and [network] and nothing else, whatever the
    result. *)
Theorem other_operations_are_unshaped
        (env : Env) (operation method : string) (network result : JS.jsval) :
  ~ In operation ["getBalance"; "getBlockNumber"; "getGasPrice";
                  "getTransactionCount"; "estimateGas"] ->
  shape env operation method network result
  = inr [("result", result); ("method", JS.JStr method); ("network", network)].
Proof.
  intros Hn. unfold shape.
  destruct (String.eqb_spec operation "getBalance");
    [exfalso; apply Hn; subst; simpl; tauto |].
  destruct (String.eqb_spec operation "getBlockNumber");
    [exfalso; apply Hn; subst; simpl; tauto |].
  destruct (String.eqb_spec operation "getGasPrice");
    [exfalso; apply Hn; subst; simpl; tauto |].
  destruct (String.eqb_spec operation "getTransactionCount");
    [exfalso; apply Hn; subst; simpl; tauto |].
  destruct (String.eqb_spec operation "estimateGas");
    [exfalso; apply Hn; subst; simpl; tauto |].
  reflexivity.
Qed.

Lemma other_operations_are_unshaped_witness :
  shape (Sample.env_answering (inl "unused")) "getCode" "eth_getCode"
        (JS.JStr "base") (JS.JStr "0x6080")
  = inr [("result", JS.JStr "0x6080"); ("method", JS.JStr "eth_getCode");
         ("network", JS.JStr "base")].
Proof.
  apply other_operations_are_unshaped. simpl.
  intros [H | [H | [H | [H | [H | []]]]]]; discriminate H.
Defined.

(** ** The batch *)

Section Batches.

Variable env : Env.

Lemma item_outcome_network (c1 c2 : Credentials) (ep : string) (i : nat) (it : Item) :
  match item_outcome env c1 ep i it, item_outcome env c2 ep i it with
  | inl e1, inl e2 => e1 = e2
  | inr _, inr _ => True
  | _, _ => False
  end.
Proof.
  unfold item_outcome. unfold_M.
  destruct (build_request env i it) as [e | [m ps]]; simpl; [reflexivity |].
  destruct (httpRequest env (request_options ep m ps i)) as [msg | response]; simpl;
    [reflexivity |].
  destruct (JS.get response "error") as [e | error]; simpl; [reflexivity |].
  destruct (JS.truthy error); simpl.
  - destruct (JS.get error "message") as [e | msg]; simpl; [reflexivity |].
    destruct (JS.get error "code") as [e | code]; simpl; reflexivity.
  - destruct (JS.get response "result") as [e | result]; simpl; [reflexivity |].
    destruct (shape env (operation it) m (network c1) result) as [e1 | rd1] eqn:E1;
      destruct (shape env (operation it) m (network c2) result) as [e2 | rd2] eqn:E2;
      simpl; trivial.
    + apply shape_fails_iff in E1. apply shape_fails_iff in E2.
      destruct E1 as (_ & _ & B1). destruct E2 as (_ & _ & B2). congruence.
    + apply shape_fails_iff in E1.
      apply (shape_fails_iff env (operation it) m (network c2)) in E1. congruence.
    + apply shape_fails_iff in E2.
      apply (shape_fails_iff env (operation it) m (network c1)) in E2. congruence.
Qed.

Lemma item_requests_network (c1 c2 : Credentials) (ep : string) (i : nat) (it : Item) :
  item_requests env c1 ep i it = item_requests env c2 ep i it.
Proof. now rewrite !item_requests_eq. Qed.

Lemma run_items_log_network (continueOnFail : bool) (c1 c2 : Credentials) (ep : string)
      (items : list Item) :
  forall (i : nat) (acc1 acc2 : list ExecutionData) (log : list RequestOptions),
    fst (run_items env continueOnFail c1 ep items i acc1 log)
    = fst (run_items env continueOnFail c2 ep items i acc2 log)
    /\ match snd (run_items env continueOnFail c1 ep items i acc1 log),
             snd (run_items env continueOnFail c2 ep items i acc2 log) with
       | inl e1, inl e2 => e1 = e2
       | inr _, inr _ => True
       | _, _ => False
       end.
Proof.
  induction items as [|x rest IH]; intros i acc1 acc2 log.
  - simpl. split; [reflexivity | exact I].
  - cbn [run_items]. unfold bind, try_catch. rewrite !process_item_log.
    rewrite (item_requests_network c1 c2).
    pose proof (item_outcome_network c1 c2 ep i x) as H.
    destruct (item_outcome env c1 ep i x) as [e1 | d1];
      destruct (item_outcome env c2 ep i x) as [e2 | d2]; try contradiction.
    + subst e2. destruct continueOnFail; unfold ret, throw.
      * apply IH.
      * simpl. split; reflexivity.
    + apply IH.
Qed.

Lemma run_items_no_failure (credentials : Credentials) (ep : string) (items : list Item) :
  forall (i : nat) (acc : list ExecutionData) (log : list RequestOptions),
    all_succeed env credentials ep i items = true ->
    run_items env false credentials ep items i acc log
    = run_items env true credentials ep items i acc log.
Proof.
  induction items as [|x rest IH]; intros i acc log Hall; [reflexivity |].
  cbn [run_items all_succeed] in *. apply andb_true_iff in Hall.
  destruct Hall as [Hx Hrest]. unfold succeeds in Hx.
  unfold bind, try_catch. rewrite process_item_log.
  destruct (item_outcome env credentials ep i x) as [e | d]; [discriminate Hx |].
  now apply IH.
Qed.

Lemma records_from_app (credentials : Credentials) (ep : string) (a b : list Item) :
  forall i,
    records_from env credentials ep i (a ++ b)
    = (records_from env credentials ep i a
         ++ records_from env credentials ep (i + List.length a) b)%list.
Proof.
  induction a as [|x a IH]; intros i; simpl.
  - now rewrite Nat.add_0_r.
  - rewrite IH. do 3 f_equal. lia.
Qed.

Lemma requests_from_app (credentials : Credentials) (ep : string) (a b : list Item) :
  forall i,
    requests_from env credentials ep i (a ++ b)
    = (requests_from env credentials ep i a
         ++ requests_from env credentials ep (i + List.length a) b)%list.
Proof.
  induction a as [|x a IH]; intros i; simpl.
  - now rewrite Nat.add_0_r.
  - rewrite IH, <- app_assoc. do 3 f_equal. lia.
Qed.

Lemma execute_tolerant (credentials : Credentials) (ep : string) (items : list Item)
      (log : list RequestOptions) :
  rpcEndpoint credentials = Some ep -> ep <> "" ->
  execute env true credentials items log
  = ((log ++ requests_from env credentials ep 0 items)%list,
     inr [records_from env credentials ep 0 items]).
Proof.
  intros Hep Hne. unfold execute. rewrite Hep. destruct ep as [|c r]; [congruence |].
  unfold bind. now rewrite run_items_tolerant.
Qed.

End Batches.

(** X13.  The network label of the credentials is never sent: two runs
    of the same batch that differ only in the credentials' label hand the
    same requests to the HTTP helper, in either mode, and one throws an
    error exactly when the other throws it. *)
Theorem network_label_is_never_sent
        (env : Env) (continueOnFail : bool) (c1 c2 : Credentials)
        (items : list Item) (log : list RequestOptions) :
  rpcEndpoint c1 = rpcEndpoint c2 ->
  fst (execute env continueOnFail c1 items log)
  = fst (execute env continueOnFail c2 items log)
  /\ forall e,
      snd (execute env continueOnFail c1 items log) = inl e
      <-> snd (execute env continueOnFail c2 items log) = inl e.
Proof.
  intros Hep. unfold execute. rewrite <- Hep.
  destruct (rpcEndpoint c1) as [[|c ep] |];
    [split; [reflexivity | tauto] | | split; [reflexivity | tauto]].
  destruct (run_items_log_network env continueOnFail c1 c2 (String c ep) items 0 [] [] log)
    as [Hl He].
  unfold bind.
  destruct (run_items env continueOnFail c1 (String c ep) items 0 [] log) as [l1 [e1 | a1]];
    destruct (run_items env continueOnFail c2 (String c ep) items 0 [] log) as [l2 [e2 | a2]];
    simpl in *; try contradiction; (split; [assumption |]); intros e.
  - now subst e2.
  - split; discriminate.
Qed.

Lemma network_label_is_never_sent_witness :
  fst (execute (Sample.env_answering (inr (Sample.ok_response (JS.JStr "0x10")))) false
         Sample.credentials
         [Sample.getBalance_item Sample.addr; Sample.getBalance_item "0x12"] [])
  = fst (execute (Sample.env_answering (inr (Sample.ok_response (JS.JStr "0x10")))) false
           {| rpcEndpoint := Some Sample.endpoint; network := JS.JStr "other" |}
           [Sample.getBalance_item Sample.addr; Sample.getBalance_item "0x12"] []).
Proof.
  apply (network_label_is_never_sent
           (Sample.env_answering (inr (Sample.ok_response (JS.JStr "0x10")))) false
           Sample.credentials
           {| rpcEndpoint := Some Sample.endpoint; network := JS.JStr "other" |}).
  reflexivity.
Defined.

(** X20.  On a batch in which every item goes through, strict mode and
    failure-tolerant mode return the same records and make the same
    requests. *)
Theorem modes_agree_without_failure
        (env : Env) (credentials : Credentials) (ep : string)
        (items : list Item) (log : list RequestOptions) :
  rpcEndpoint credentials = Some ep ->
  all_succeed env credentials ep 0 items = true ->
  execute env false credentials items log = execute env true credentials items log.
Proof.
  intros Hep Hall. unfold execute. rewrite Hep.
  destruct ep as [|c r]; [reflexivity |].
  unfold bind. now rewrite (run_items_no_failure env credentials (String c r) items).
Qed.

Lemma modes_agree_without_failure_witness :
  execute (Sample.env_answering (inr (Sample.ok_response (JS.JStr "0x10")))) false
          Sample.credentials
          [Sample.getBalance_item Sample.addr; Sample.getBlock_item "12" true] []
  = execute (Sample.env_answering (inr (Sample.ok_response (JS.JStr "0x10")))) true
            Sample.credentials
            [Sample.getBalance_item Sample.addr; Sample.getBlock_item "12" true] [].
Proof.
  apply (modes_agree_without_failure
           (Sample.env_answering (inr (Sample.ok_response (JS.JStr "0x10"))))
           Sample.credentials Sample.endpoint); reflexivity.
Defined.

(** X21.  In failure-tolerant mode, items added at the end of a batch
    change neither the records nor the requests of the items before
    them: the run of [a ++ b] returns the records of the run of [a]
    followed by one record per item of [b], and its requests start with
    those of the run of [a]. *)
Theorem tolerant_batch_is_prefix_stable
        (env : Env) (credentials : Credentials) (ep : string)
        (a b : list Item) (log : list RequestOptions) :
  rpcEndpoint credentials = Some ep -> ep <> "" ->
  exists out_a out_b reqs_a reqs_b,
    execute env true credentials a log = ((log ++ reqs_a)%list, inr [out_a])
    /\ execute env true credentials (a ++ b) log
       = ((log ++ reqs_a ++ reqs_b)%list, inr [(out_a ++ out_b)%list])
    /\ List.length out_b = List.length b
    /\ forall k it,
        nth_error b k = Some it ->
        nth_error out_b k
        = Some (item_record env credentials ep (List.length a + k) it).
Proof.
  intros Hep Hne.
  exists (records_from env credentials ep 0 a),
         (records_from env credentials ep (List.length a) b),
         (requests_from env credentials ep 0 a),
         (requests_from env credentials ep (List.length a) b).
  split; [now apply execute_tolerant |]. split; [| split].
  - rewrite (execute_tolerant env credentials ep (a ++ b) log Hep Hne).
    now rewrite records_from_app, requests_from_app.
  - apply records_from_length.
  - intros k it Hk. now apply records_from_nth.
Qed.

Lemma tolerant_batch_is_prefix_stable_witness :
  exists out_a out_b reqs_a reqs_b,
    execute (Sample.env_answering (inr (Sample.ok_response (JS.JStr "0x10")))) true
            Sample.credentials [Sample.getBalance_item "0x12"] []
    = (([] ++ reqs_a)%list, inr [out_a])
    /\ execute (Sample.env_answering (inr (Sample.ok_response (JS.JStr "0x10")))) true
               Sample.credentials
               ([Sample.getBalance_item "0x12"] ++ [Sample.getBlock_item "12" true]) []
       = (([] ++ reqs_a ++ reqs_b)%list, inr [(out_a ++ out_b)%list])
    /\ List.length out_b = List.length [Sample.getBlock_item "12" true]
    /\ forall k it,
        nth_error [Sample.getBlock_item "12" true] k = Some it ->
        nth_error out_b k
        = Some (item_record (Sample.env_answering (inr (Sample.ok_response (JS.JStr "0x10"))))
                            Sample.credentials Sample.endpoint
                            (List.length [Sample.getBalance_item "0x12"] + k) it).
Proof.
  apply (tolerant_batch_is_prefix_stable
           (Sample.env_answering (inr (Sample.ok_response (JS.JStr "0x10"))))
           Sample.credentials Sample.endpoint); [reflexivity | discriminate].
Defined.

(** X22.  A success record has only one origin: the item's request was
    built, the helper resolved with a response whose [error] is falsy,
    and the record starts with the raw [result] of that response, the
    method that was sent and the credentials' network label, paired with
    the item's index. *)
Theorem success_record_provenance
        (env : Env) (credentials : Credentials) (ep : string) (i : nat) (it : Item)
        (d : ExecutionData) :
  item_outcome env credentials ep i it = inr d ->
  exists method params response error result rest,
    build_request env i it = inr (method, params)
    /\ httpRequest env (request_options ep method params i) = inr response
    /\ JS.get response "error" = inr error
    /\ JS.truthy error = false
    /\ JS.get response "result" = inr result
    /\ d = {| json := ("result", result) :: ("method", JS.JStr method)
                        :: ("network", network credentials) :: rest;
              pairedItem := i |}.
Proof.
  unfold item_outcome. unfold_M.
  destruct (build_request env i it) as [e | [m ps]]; simpl; [discriminate |].
  destruct (httpRequest env (request_options ep m ps i)) as [msg | response] eqn:Hh;
    simpl; [discriminate |].
  destruct (JS.get response "error") as [e | error] eqn:He; simpl; [discriminate |].
  destruct (JS.truthy error) eqn:Ht; simpl.
  - destruct (JS.get error "message") as [e | msg]; simpl; [discriminate |].
    destruct (JS.get error "code") as [e | code]; simpl; discriminate.
  - destruct (JS.get response "result") as [e | result] eqn:Hr; simpl; [discriminate |].
    destruct (shape env (operation it) m (network credentials) result) as [e | rd] eqn:Es;
      simpl; [discriminate |].
    intros E. injection E as <-.
    destruct (shape_base _ _ _ _ _ _ Es) as (rest & ->).
    exists m, ps, response, error, result, rest. repeat split; assumption.
Qed.

Lemma success_record_provenance_witness :
  exists method params response error result rest,
    build_request (Sample.env_answering (inr (Sample.ok_response (JS.JStr "0x10")))) 2
                  (Sample.getBalance_item Sample.addr) = inr (method, params)
    /\ httpRequest (Sample.env_answering (inr (Sample.ok_response (JS.JStr "0x10"))))
                   (request_options Sample.endpoint method params 2) = inr response
    /\ JS.get response "error" = inr error
    /\ JS.truthy error = false
    /\ JS.get response "result" = inr result
    /\ {| json := [("result", JS.JStr "0x10"); ("method", JS.JStr "eth_getBalance");
                   ("network", JS.JStr "ethereum-mainnet");
                   ("balanceWei", JS.JStr "16");
                   ("balanceEth", JS.JStr "0.000000000000000016")];
          pairedItem := 2 |}
       = {| json := ("result", result) :: ("method", JS.JStr method)
                      :: ("network", network Sample.credentials) :: rest;
            pairedItem := 2 |}.
Proof.
  apply (success_record_provenance
           (Sample.env_answering (inr (Sample.ok_response (JS.JStr "0x10"))))
           Sample.credentials Sample.endpoint 2 (Sample.getBalance_item Sample.addr)).
  reflexivity.
Defined.

(** X23.  A falsy [error] field ([null], [false], [0], the empty string
    or none at all) is no error: when the request is built, the helper
    resolves and shaping does not throw, the item yields the shaped
    record, paired with its index, after its one request. *)
Theorem falsy_error_is_success
        (env : Env) (credentials : Credentials) (ep : string) (i : nat) (it : Item)
        (log : list RequestOptions) (method : string) (params : list JS.jsval)
        (response error result : JS.jsval) (resultData : JS.obj) :
  build_request env i it = inr (method, params) ->
  httpRequest env (request_options ep method params i) = inr response ->
  JS.get response "error" = inr error ->
  JS.truthy error = false ->
  JS.get response "result" = inr result ->
  shape env (operation it) method (network credentials) result = inr resultData ->
  process_item env credentials ep i it log
  = ((log ++ [request_options ep method params i])%list,
     inr {| json := resultData; pairedItem := i |}).
Proof.
  intros Hb Hh He Ht Hr Hs.
  unfold_M. rewrite Hb. simpl. rewrite Hh. simpl. rewrite He. simpl.
  rewrite Ht, Hr. simpl. now rewrite Hs.
Qed.

(** A response that carries both [error: null] and a result. *)
Lemma falsy_error_is_success_witness :
  process_item
    (Sample.env_answering
       (inr (JS.JObj [("jsonrpc", JS.JStr "2.0"); ("error", JS.JNull);
                      ("result", JS.JStr "0x6080")])))
    Sample.credentials Sample.endpoint 0
    {| operation := "getCode"; address := Sample.addr; block := None;
       blockIdentifier := "latest"; fullTransactions := false; txHash := "";
       to := ""; from := None; data := None; value := None;
       rpcMethod := ""; rpcParams := None |} []
  = (([] ++ [request_options Sample.endpoint "eth_getCode"
               [JS.JStr Sample.addr; JS.JStr "latest"] 0])%list,
     inr {| json := [("result", JS.JStr "0x6080"); ("method", JS.JStr "eth_getCode");
                     ("network", JS.JStr "ethereum-mainnet")];
            pairedItem := 0 |}).
Proof.
  apply (falsy_error_is_success
           (Sample.env_answering
              (inr (JS.JObj [("jsonrpc", JS.JStr "2.0"); ("error", JS.JNull);
                             ("result", JS.JStr "0x6080")])))
           Sample.credentials Sample.endpoint 0 _ [] "eth_getCode"
           [JS.JStr Sample.addr; JS.JStr "latest"]
           (JS.JObj [("jsonrpc", JS.JStr "2.0"); ("error", JS.JNull);
                     ("result", JS.JStr "0x6080")])
           JS.JNull (JS.JStr "0x6080"));
    reflexivity.
Defined.
